(** * Safe-Link-AI: the prediction service and its model loader

    A shallow embedding of [app.py], [model_loader.py] and
    [column_selector.py], and the properties of the request validator, the
    label codec, the feature schema and the load-once cache.

    Python values are an inductive type; exceptions are the [Raise] case of
    an error monad; the module-level cache of [model_loader.py] is threaded
    explicitly; floats are IEEE-754 binary64 values ([spec_float] at
    precision 53). *)

From Stdlib Require Import ZArith List String Ascii Bool Lia.
From Stdlib Require Import DecimalString DecimalPos DecimalFacts.
From Stdlib Require Import Floats.SpecFloat.
Import ListNotations.

Local Open Scope string_scope.
Local Open Scope Z_scope.

Set Warnings "-register-all".

(** ** Python values, exceptions and builtins *)

Module Py.

(** The values that reach the code: what JSON decoding, unpickling and the
    pipeline produce.  A [PyDict] lists its entries in insertion order, with
    pairwise distinct keys.  [PyObj] is an instance of a class without
    numeric or container protocol and unknown to the JSON encoder, described
    by its attributes (a fitted sklearn pipeline, a transformer).
    [PyNpInt] is a numpy integer scalar ([numpy.int64] and the like, [z]
    within the range of its type), as the arrays a fitted pipeline returns
    hold them: it is no instance of [int].  [numpy.float64] and [numpy.str_]
    are instances of [float] and [str], and are the [PyFloat] and [PyStr]
    here.  Strings are sequences of code points below 256.  Integers are
    unbounded. *)
Inductive pyval : Type :=
| PyNone
| PyBool (b : bool)
| PyInt (z : Z)
| PyFloat (f : spec_float)
| PyStr (s : string)
| PyList (l : list pyval)
| PyDict (d : list (pyval * pyval))
| PyObj (cls : string) (attrs : list (string * pyval))
| PyNpInt (z : Z).

Inductive exn : Type :=
| FileNotFoundError
| ValueError
| TypeError
| AttributeError
| IndexError
| KeyError
| OverflowError
| ExternalError (msg : string).

Inductive result (A : Type) : Type :=
| Ok (a : A)
| Raise (e : exn).

Arguments Ok {A} a.
Arguments Raise {A} e.

Definition bind {A B : Type} (c : result A) (k : A -> result B) : result B :=
  match c with
  | Ok a => k a
  | Raise e => Raise e
  end.

(** [try: c except Exception: h] *)
Definition try_except {A : Type} (c : result A) (h : exn -> result A) : result A :=
  match c with
  | Ok a => Ok a
  | Raise e => h e
  end.

Definition is_ok {A : Type} (c : result A) : bool :=
  match c with Ok _ => true | Raise _ => false end.

Declare Scope py_scope.
Delimit Scope py_scope with py.
Notation "x <- c ;; k" := (bind c (fun x => k))
  (at level 61, c at next level, right associativity) : py_scope.
Local Open Scope py_scope.

(** *** binary64 *)

Definition prec : Z := 53.
Definition emax : Z := 1024.

Definition float_zero : spec_float := S754_zero false.
Definition float_one : spec_float := S754_finite false 4503599627370496 (-52).

(** *** Characters *)

Definition code (c : ascii) : Z := Z.of_N (N_of_ascii c).

Definition is_decimal (c : ascii) : bool :=
  (48 <=? code c) && (code c <=? 57).

(** [str.isdigit] per character: the decimal digits and the superscript
    digits U+00B2, U+00B3, U+00B9. *)
Definition is_digit_char (c : ascii) : bool :=
  is_decimal c || (code c =? 178) || (code c =? 179) || (code c =? 185).

(** The white space [int] and [float] strip from both ends: the C-locale
    space characters, and U+0085 and U+00A0 (turned into a space before
    parsing). *)
Definition is_space (c : ascii) : bool :=
  ((9 <=? code c) && (code c <=? 13)) || (code c =? 32)
  || (code c =? 133) || (code c =? 160).

Definition chars (s : string) : list ascii := list_ascii_of_string s.

Fixpoint lstrip (l : list ascii) : list ascii :=
  match l with
  | c :: r => if is_space c then lstrip r else l
  | [] => []
  end.

Definition strip (l : list ascii) : list ascii :=
  rev (lstrip (rev (lstrip l))).

Definition to_lower (c : ascii) : ascii :=
  if (65 <=? code c) && (code c <=? 90)
  then ascii_of_N (N_of_ascii c + 32) else c.

Definition digit_value (c : ascii) : Z := code c - 48.

(** The number a run of decimal digits writes, most significant first. *)
Definition digits_value (l : list ascii) : Z :=
  fold_left (fun acc c => 10 * acc + digit_value c) l 0.

(** [str.isdigit()]: non-empty and every character a digit. *)
Definition str_isdigit (s : string) : bool :=
  match chars s with
  | [] => false
  | l => forallb is_digit_char l
  end.

(** The interpreter's limit on the number of digits of a decimal text
    converted to or from an integer ([sys.int_info.default_max_str_digits],
    CPython 3.11 and later). *)
Definition max_str_digits : Z := 4300.

(** The decimal text of an integer. *)
Definition decimal (z : Z) : string := NilZero.string_of_int (Z.to_int z).

(** [str(n)] for an integer: [ValueError] when [n] has more digits than the
    limit. *)
Definition str_of_int (z : Z) : result string :=
  if Z.of_nat (String.length (decimal (Z.abs z))) <=? max_str_digits
  then Ok (decimal z)
  else Raise ValueError.

(** *** [int(x)] *)

(** Digits with single underscores between them: [D (_? D)*]. *)
Fixpoint int_digits (prev_digit : bool) (l : list ascii) : option (list ascii) :=
  match l with
  | [] => if prev_digit then Some [] else None
  | c :: r =>
      if is_decimal c then option_map (cons c) (int_digits true r)
      else if (code c =? 95) && prev_digit then
        match r with
        | d :: _ => if is_decimal d then int_digits false r else None
        | [] => None
        end
      else None
  end.

Definition split_sign (l : list ascii) : bool * list ascii :=
  match l with
  | c :: r =>
      if code c =? 45 then (true, r)
      else if code c =? 43 then (false, r)
      else (false, l)
  | [] => (false, [])
  end.

(** [int(s)]: [None] stands for the [ValueError] of a text that is no
    integer literal, or that has more digits than the limit. *)
Definition int_of_str (s : string) : option Z :=
  let '(neg, body) := split_sign (strip (chars s)) in
  match int_digits false body with
  | Some ds =>
      if Z.of_nat (List.length ds) <=? max_str_digits
      then Some (if neg then - digits_value ds else digits_value ds)
      else None
  | None => None
  end.

(** Truncation of a float towards zero. *)
Definition float_trunc (f : spec_float) : option Z :=
  match f with
  | S754_zero _ => Some 0
  | S754_finite s m e =>
      let a := if 0 <=? e then Z.pos m * 2 ^ e else Z.pos m / 2 ^ (- e) in
      Some (if s then - a else a)
  | S754_infinity _ | S754_nan => None
  end.

Definition py_int (v : pyval) : result Z :=
  match v with
  | PyInt z => Ok z
  | PyBool b => Ok (if b then 1 else 0)
  | PyFloat f =>
      match f with
      | S754_nan => Raise ValueError
      | S754_infinity _ => Raise OverflowError
      | _ => match float_trunc f with Some z => Ok z | None => Raise ValueError end
      end
  | PyStr s =>
      match int_of_str s with Some z => Ok z | None => Raise ValueError end
  | PyNpInt z => Ok z
  | PyNone | PyList _ | PyDict _ | PyObj _ _ => Raise TypeError
  end.

(** *** [float(x)] *)

(** The binary64 nearest to [(-1)^neg * m * 10^e], ties to even. *)
Definition float_of_decimal (neg : bool) (m e : Z) : spec_float :=
  match m with
  | Z.pos p =>
      if 0 <=? e
      then binary_normalize prec emax (cond_Zopp neg (m * 10 ^ e)) 0 neg
      else SFdiv prec emax (S754_finite neg p 0)
                           (S754_finite false (Z.to_pos (10 ^ (- e))) 0)
  | _ => S754_zero neg
  end.

(** Underscores are dropped when a digit stands on each side of them. *)
Fixpoint drop_underscores (prev : option ascii) (l : list ascii)
  : option (list ascii) :=
  match l with
  | [] =>
      match prev with
      | Some p => if code p =? 95 then None else Some []
      | None => Some []
      end
  | c :: r =>
      if code c =? 95 then
        match prev with
        | Some p => if is_decimal p then drop_underscores (Some c) r else None
        | None => None
        end
      else
        let after_underscore :=
          match prev with Some p => code p =? 95 | None => false end in
        if after_underscore && negb (is_decimal c) then None
        else option_map (cons c) (drop_underscores (Some c) r)
  end.

Fixpoint span_digits (l : list ascii) : list ascii * list ascii :=
  match l with
  | c :: r =>
      if is_decimal c
      then let '(ds, rest) := span_digits r in (c :: ds, rest)
      else ([], l)
  | [] => ([], [])
  end.

(** The exponent part: nothing, or [e], an optional sign and digits. *)
Definition parse_exponent (l : list ascii) : option Z :=
  match l with
  | [] => Some 0
  | c :: r =>
      if (code c =? 101) || (code c =? 69) then
        let '(neg, r') := split_sign r in
        match span_digits r' with
        | (d :: ds, []) =>
            let x := digits_value (d :: ds) in
            Some (if neg then - x else x)
        | _ => None
        end
      else None
  end.

(** A decimal literal: digits, an optional point and digits (one digit at
    least overall), an optional exponent. *)
Definition parse_decimal (neg : bool) (l : list ascii) : option spec_float :=
  let '(ip, r1) := span_digits l in
  let '(fp, r2) :=
    match r1 with
    | c :: r => if code c =? 46 then span_digits r else ([], r1)
    | [] => ([], [])
    end in
  match (ip ++ fp)%list with
  | [] => None
  | ds =>
      match parse_exponent r2 with
      | Some x => Some (float_of_decimal neg (digits_value ds)
                                         (x - Z.of_nat (List.length fp)))
      | None => None
      end
  end.

Definition float_of_str (s : string) : option spec_float :=
  match drop_underscores None (strip (chars s)) with
  | None => None
  | Some l =>
      let '(neg, body) := split_sign l in
      let low := string_of_list_ascii (map to_lower body) in
      if (low =? "inf")%string || (low =? "infinity")%string
      then Some (S754_infinity neg)
      else if (low =? "nan")%string then Some S754_nan
      else parse_decimal neg body
  end.

(** [float(n)] for an integer: the nearest binary64, [OverflowError] beyond
    the range. *)
Definition float_of_int (z : Z) : result spec_float :=
  match binary_normalize prec emax z 0 false with
  | S754_infinity _ => Raise OverflowError
  | f => Ok f
  end.

Definition py_float (v : pyval) : result spec_float :=
  match v with
  | PyFloat f => Ok f
  | PyInt z => float_of_int z
  | PyBool b => Ok (if b then float_one else float_zero)
  | PyStr s =>
      match float_of_str s with Some f => Ok f | None => Raise ValueError end
  | PyNpInt z => float_of_int z
  | PyNone | PyList _ | PyDict _ | PyObj _ _ => Raise TypeError
  end.

(** *** Truth value, equality of keys, dictionaries *)

Definition truthy (v : pyval) : bool :=
  match v with
  | PyNone => false
  | PyBool b => b
  | PyInt z => negb (z =? 0)
  | PyFloat (S754_zero _) => false
  | PyFloat _ => true
  | PyStr s => negb (s =? "")%string
  | PyList l => match l with [] => false | _ => true end
  | PyDict d => match d with [] => false | _ => true end
  | PyObj _ _ => true
  | PyNpInt z => negb (z =? 0)
  end.

(** [a or b] *)
Definition py_or (a b : pyval) : pyval := if truthy a then a else b.

Definition is_none (v : pyval) : bool :=
  match v with PyNone => true | _ => false end.

(** [isinstance(v, int)]: [bool] is a subclass of [int], the numpy integers
    are not. *)
Definition isinstance_int (v : pyval) : bool :=
  match v with PyInt _ | PyBool _ => true | _ => false end.

(** [isinstance(v, (int, float))] *)
Definition isinstance_int_float (v : pyval) : bool :=
  match v with PyInt _ | PyBool _ | PyFloat _ => true | _ => false end.

Definition isinstance_str (v : pyval) : bool :=
  match v with PyStr _ => true | _ => false end.

Definition isinstance_dict (v : pyval) : bool :=
  match v with PyDict _ => true | _ => false end.

(** The integer a value is when compared, hashed or used as an index. *)
Definition as_int (v : pyval) : option Z :=
  match v with
  | PyInt z | PyNpInt z => Some z
  | PyBool b => Some (if b then 1 else 0)
  | _ => None
  end.

Definition float_eq_int (f : spec_float) (z : Z) : bool :=
  match f with
  | S754_zero _ => z =? 0
  | S754_finite s m e =>
      let v := cond_Zopp s (Z.pos m) in
      if 0 <=? e then z =? v * 2 ^ e else z * 2 ^ (- e) =? v
  | S754_infinity _ | S754_nan => false
  end.

(** [a == b] on the values that can be dictionary keys: numbers compare by
    value across [bool], [int] and [float]. *)
Definition key_eqb (a b : pyval) : bool :=
  match a, b with
  | PyNone, PyNone => true
  | PyStr s, PyStr t => (s =? t)%string
  | PyFloat f, PyFloat g => SFeqb f g
  | PyFloat f, _ =>
      match as_int b with Some z => float_eq_int f z | None => false end
  | _, PyFloat g =>
      match as_int a with Some z => float_eq_int g z | None => false end
  | _, _ =>
      match as_int a, as_int b with
      | Some x, Some y => x =? y
      | _, _ => false
      end
  end.

(** Lists and dictionaries cannot be hashed. *)
Definition hashable (v : pyval) : bool :=
  match v with PyList _ | PyDict _ => false | _ => true end.

Definition pydict : Type := list (pyval * pyval).

Fixpoint dict_lookup (d : pydict) (k : pyval) : option pyval :=
  match d with
  | [] => None
  | (k', v) :: r => if key_eqb k' k then Some v else dict_lookup r k
  end.

(** [d[k] = v]: the entry of an equal key is overwritten in place, a new
    key is added at the end. *)
Fixpoint dict_set (d : pydict) (k v : pyval) : pydict :=
  match d with
  | [] => [(k, v)]
  | (k', v') :: r =>
      if key_eqb k' k then (k', v) :: r else (k', v') :: dict_set r k v
  end.

(** [d.get(name)] with a string key: [None] when the key is absent. *)
Definition dict_get (d : pydict) (name : string) : pyval :=
  match dict_lookup d (PyStr name) with
  | Some v => v
  | None => PyNone
  end.

(** [k in d] for a dictionary [d]. *)
Definition dict_mem (d : pydict) (k : pyval) : result bool :=
  if hashable k then Ok (match dict_lookup d k with Some _ => true | None => false end)
  else Raise TypeError.

(** [v.get(name)]: the method exists on dictionaries. *)
Definition py_get (v : pyval) (name : string) : result pyval :=
  match v with
  | PyDict d => Ok (dict_get d name)
  | _ => Raise AttributeError
  end.

(** [v.items()] *)
Definition py_items (v : pyval) : result pydict :=
  match v with
  | PyDict d => Ok d
  | _ => Raise AttributeError
  end.

Fixpoint is_prefix (p l : list ascii) : bool :=
  match p, l with
  | [], _ => true
  | a :: p', b :: l' => (code a =? code b) && is_prefix p' l'
  | _ :: _, [] => false
  end.

Fixpoint is_infix (p l : list ascii) : bool :=
  is_prefix p l || match l with [] => false | _ :: r => is_infix p r end.

(** [x in c] *)
Definition py_contains (c x : pyval) : result bool :=
  match c with
  | PyDict d => dict_mem d x
  | PyList l => Ok (existsb (fun y => key_eqb y x) l)
  | PyStr s =>
      match x with
      | PyStr t => Ok (is_infix (chars t) (chars s))
      | _ => Raise TypeError
      end
  | _ => Raise TypeError
  end.

(** [c[k]] *)
Definition py_getitem (c k : pyval) : result pyval :=
  match c with
  | PyDict d =>
      if hashable k
      then match dict_lookup d k with Some v => Ok v | None => Raise KeyError end
      else Raise TypeError
  | PyList l =>
      match as_int k with
      | Some i =>
          let n := Z.of_nat (List.length l) in
          let j := if i <? 0 then i + n else i in
          if (0 <=? j) && (j <? n)
          then match nth_error l (Z.to_nat j) with
               | Some v => Ok v
               | None => Raise IndexError
               end
          else Raise IndexError
      | None => Raise TypeError
      end
  | _ => Raise TypeError
  end.

(** [hasattr(v, name)] and [v.name]: instances carry attributes. *)
Fixpoint assoc_str (l : list (string * pyval)) (name : string) : option pyval :=
  match l with
  | [] => None
  | (n, v) :: r => if (n =? name)%string then Some v else assoc_str r name
  end.

Definition hasattr (v : pyval) (name : string) : bool :=
  match v with
  | PyObj _ attrs => match assoc_str attrs name with Some _ => true | None => false end
  | _ => false
  end.

Definition getattr (v : pyval) (name : string) : result pyval :=
  match v with
  | PyObj _ attrs =>
      match assoc_str attrs name with Some a => Ok a | None => Raise AttributeError end
  | _ => Raise AttributeError
  end.

(** [list(v)]: the elements of a list, the characters of a string, the keys
    of a dictionary. *)
Definition py_list (v : pyval) : result (list pyval) :=
  match v with
  | PyList l => Ok l
  | PyStr s => Ok (map (fun c => PyStr (String c EmptyString)) (chars s))
  | PyDict d => Ok (map fst d)
  | _ => Raise TypeError
  end.

(** *** What the code takes from outside

    [repr] is the builtin on the values of a JSON body, where it always
    returns; [str_of_value] is [str] on the values whose text is not fixed
    here (floats, containers, instances), and raises what their conversion
    raises; [exn_str] is [str(e)] of an exception; [json_exn] is the
    exception the JSON encoder raises on a value it refuses ([TypeError] or
    [ValueError]); [DataFrame] is the pandas constructor as [predict] calls
    it; [pipeline_predict] and [pipeline_predict_proba] are the two methods
    of the trained pipeline, returning the array of classes and the matrix
    of class probabilities; [ndarray_max] is numpy's [max] on a row of that
    matrix. *)
Record frame : Type := { columns : pyval; rows : list pydict }.

Class Externals : Type := {
  repr : pyval -> string;
  str_of_value : pyval -> result string;
  exn_str : exn -> string;
  json_exn : pyval -> exn;
  DataFrame : list pydict -> pyval -> result frame;
  pipeline_predict : pyval -> frame -> result (list pyval);
  pipeline_predict_proba : pyval -> frame -> result (list (list spec_float));
  ndarray_max : list spec_float -> result spec_float
}.

(** [str(v)] *)
Definition py_str `{E : Externals} (v : pyval) : result string :=
  match v with
  | PyStr s => Ok s
  | PyInt z => str_of_int z
  | PyNpInt z => Ok (decimal z)
  | PyBool true => Ok "True"
  | PyBool false => Ok "False"
  | PyNone => Ok "None"
  | PyFloat _ | PyList _ | PyDict _ | PyObj _ _ => str_of_value v
  end.

(** The text of a schema field in a message, [f"{k}"].  The field is then a
    key of the JSON object, that is a string; another value is formatted by
    its [str], and [repr] stands for it when that raises, a case no JSON
    body leads to. *)
Definition field_text `{E : Externals} (k : pyval) : string :=
  match py_str k with
  | Ok s => s
  | Raise _ => repr k
  end.

End Py.

(** ** column_selector.py *)

Module ColumnSelector.
Import Py.
Local Open Scope py_scope.

(** [ColumnSelector.__init__]: [self.required_columns = list(required_columns)] *)
Definition __init__ (required_columns : pyval) : result pyval :=
  l <- py_list required_columns ;;
  Ok (PyObj "ColumnSelector" [("required_columns", PyList l)]).

End ColumnSelector.

(** ** model_loader.py *)

Module ModelLoader.
Import Py.
Local Open Scope py_scope.

(** What is at [MODEL_PATH]: no file, or a file that [joblib.load] turns
    into an object or fails on. *)
Definition world : Type := option (result pyval).

(** The module-level dictionary [_model_cache]. *)
Record model_cache : Type := { loaded : bool; package : pyval }.

(** The state of the process as the loader sees it: the cache, and how many
    times [joblib.load] has run so far. *)
Record process : Type := { _model_cache : model_cache; joblib_loads : nat }.

Definition initial : process :=
  {| _model_cache := {| loaded := false; package := PyNone |};
     joblib_loads := 0 |}.

Definition _load_model_file (w : world) (st : process) : result pyval * process :=
  match w with
  | None => (Raise FileNotFoundError, st)
  | Some r =>
      (r, {| _model_cache := _model_cache st;
             joblib_loads := S (joblib_loads st) |})
  end.

Definition _normalize_package (loaded_obj : pyval) : result pydict :=
  let package :=
    match loaded_obj with
    | PyDict d =>
        [ (PyStr "pipeline",
            py_or (py_or (dict_get d "pipeline") (dict_get d "model"))
                  (dict_get d "pipeline_obj"));
          (PyStr "required_raw_features", dict_get d "required_raw_features");
          (PyStr "label_mapping", dict_get d "label_mapping");
          (PyStr "model_metadata", dict_get d "model_metadata") ]
    | _ =>
        [ (PyStr "pipeline", loaded_obj);
          (PyStr "required_raw_features", PyNone);
          (PyStr "label_mapping", PyNone);
          (PyStr "model_metadata", PyNone) ]
    end in
  if is_none (dict_get package "pipeline")
  then Raise ValueError
  else Ok package.

Section WithExternals.
Context `{E : Externals}.

(** The [except] branch of the loop body, from the two dictionaries as the
    [try] block left them: [name_to_id[str(k)] = int(v)], of which the
    right-hand side is evaluated first, then [id_to_name[int(v)] = str(k)]. *)
Definition codec_entry_except (id_to_name name_to_id : pydict) (k v : pyval)
  : result (pydict * pydict) :=
  vid <- py_int v ;;
  name <- py_str k ;;
  Ok (dict_set id_to_name (PyInt vid) (PyStr name),
      dict_set name_to_id (PyStr name) (PyInt vid)).

(** One turn of the loop over [label_map.items()]: the two dictionaries
    [(id_to_name, name_to_id)] after the entry [(k, v)].  When [str(v)]
    raises, [id_to_name[kid] = v] has been done already. *)
Definition codec_entry (acc : pydict * pydict) (kv : pyval * pyval)
  : result (pydict * pydict) :=
  let '(id_to_name, name_to_id) := acc in
  let '(k, v) := kv in
  match py_int k with
  | Ok kid =>
      let id_to_name' := dict_set id_to_name (PyInt kid) v in
      match py_str v with
      | Ok name => Ok (id_to_name', dict_set name_to_id (PyStr name) (PyInt kid))
      | Raise _ => codec_entry_except id_to_name' name_to_id k v
      end
  | Raise _ => codec_entry_except id_to_name name_to_id k v
  end.

Fixpoint build_codec (items : pydict) (acc : pydict * pydict)
  : result (pydict * pydict) :=
  match items with
  | [] => Ok acc
  | kv :: rest => acc' <- codec_entry acc kv ;; build_codec rest acc'
  end.

(** The post-processing of [label_mapping] in [_ensure_loaded]. *)
Definition attach_codec (package : pydict) : result pydict :=
  let label_map := dict_get package "label_mapping" in
  if negb (is_none label_map) then
    items <- py_items label_map ;;
    c <- build_codec items ([], []) ;;
    Ok (dict_set
          (dict_set package (PyStr "_label_id_to_name") (PyDict (fst c)))
          (PyStr "_label_name_to_id") (PyDict (snd c)))
  else
    Ok (dict_set
          (dict_set package (PyStr "_label_id_to_name") PyNone)
          (PyStr "_label_name_to_id") PyNone).

(** Lines 71 to 95 of [_ensure_loaded]: the file is read and normalised, and
    the codec is attached. *)
Definition prepare (w : world) (st : process) : result pydict * process :=
  let '(r, st1) := _load_model_file w st in
  (loaded_obj <- r ;;
   package <- _normalize_package loaded_obj ;;
   attach_codec package,
   st1).

(** [_ensure_loaded], one caller at a time: the second test of the flag,
    under the lock, sees what the first saw. *)
Definition _ensure_loaded (w : world) (st : process) : result unit * process :=
  if loaded (_model_cache st) then (Ok tt, st)
  else if loaded (_model_cache st) then (Ok tt, st)
  else
    match prepare w st with
    | (Ok package, st1) =>
        (Ok tt, {| _model_cache := {| loaded := true; package := PyDict package |};
                   joblib_loads := joblib_loads st1 |})
    | (Raise e, st1) => (Raise e, st1)
    end.

Definition get_pipeline (w : world) (st : process) : result pyval * process :=
  match _ensure_loaded w st with
  | (Ok _, st') => (Ok (package (_model_cache st')), st')
  | (Raise e, st') => (Raise e, st')
  end.

(** The body of [get_required_features] after [_ensure_loaded]. *)
Definition required_features_of (package : pyval) : result pyval :=
  features <- py_get package "required_raw_features" ;;
  features <-
    (if is_none features then
       pipeline <- py_get package "pipeline" ;;
       try_except
         (has_selector <-
            (if hasattr pipeline "named_steps"
             then named_steps <- getattr pipeline "named_steps" ;;
                  py_contains named_steps (PyStr "selector")
             else Ok false) ;;
          if has_selector : bool then
            named_steps <- getattr pipeline "named_steps" ;;
            sel <- py_getitem named_steps (PyStr "selector") ;;
            if hasattr sel "required_columns" then
              required_columns <- getattr sel "required_columns" ;;
              l <- py_list required_columns ;;
              Ok (PyList l)
            else Ok features
          else Ok features)
         (fun _ => Ok PyNone)
     else Ok features) ;;
  Ok (if is_none features then PyList [] else features).

Definition get_required_features (w : world) (st : process)
  : result pyval * process :=
  match _ensure_loaded w st with
  | (Ok _, st') => (required_features_of (package (_model_cache st')), st')
  | (Raise e, st') => (Raise e, st')
  end.

(** The body of [decode_label] after [_ensure_loaded].  The [try] block
    yields [Some] of what it returns, or [None] when control leaves it
    without a [return]. *)
Definition decode_with (package prediction : pyval) : result pyval :=
  r <- try_except
         (if isinstance_int prediction
             || (match prediction with PyStr s => str_isdigit s | _ => false end)
          then
            pid <- py_int prediction ;;
            id_to_name <- py_get package "_label_id_to_name" ;;
            found <- (if truthy id_to_name
                      then py_contains id_to_name (PyInt pid)
                      else Ok false) ;;
            if found : bool
            then name <- py_getitem id_to_name (PyInt pid) ;; Ok (Some name)
            else text <- py_str (PyInt pid) ;; Ok (Some (PyStr text))
          else Ok None)
         (fun _ => Ok None) ;;
  match r with
  | Some v => Ok v
  | None =>
      if isinstance_str prediction then Ok prediction
      else text <- py_str prediction ;; Ok (PyStr text)
  end.

Definition decode_label (w : world) (st : process) (prediction : pyval)
  : result pyval * process :=
  match _ensure_loaded w st with
  | (Ok _, st') => (decode_with (package (_model_cache st')) prediction, st')
  | (Raise e, st') => (Raise e, st')
  end.

End WithExternals.

End ModelLoader.

(** ** app.py *)

Module App.
Import Py ModelLoader.
Local Open Scope py_scope.

(** *** Numbers in the response *)

(** The integer nearest to [a / b] for [b > 0], ties to the even one. *)
Definition div_half_even (a b : Z) : Z :=
  let q := a / b in
  match (2 * (a mod b)) ?= b with
  | Lt => q
  | Gt => q + 1
  | Eq => if Z.even q then q else q + 1
  end.

(** [round(x, ndigits)] on a float, [ndigits >= 0]: the decimal with
    [ndigits] places nearest to [x] (ties to even), then the float nearest
    to that decimal. *)
Definition py_round (x : spec_float) (ndigits : Z) : spec_float :=
  match x with
  | S754_finite s m e =>
      let scaled :=
        if 0 <=? e then Z.pos m * 2 ^ e * 10 ^ ndigits
        else div_half_even (Z.pos m * 10 ^ ndigits) (2 ^ (- e)) in
      float_of_decimal s scaled (- ndigits)
  | _ => x
  end.

(** [a[0]] on an array. *)
Definition first {A : Type} (a : list A) : result A :=
  match a with
  | [] => Raise IndexError
  | x :: _ => Ok x
  end.

(** *** Requests and responses *)

Inductive request : Type :=
| NotJson                      (* [request.is_json] is false *)
| InvalidJson                  (* [request.get_json()] raises [BadRequest] *)
| JsonBody (payload : pyval).  (* the parsed body *)

(** A response with its status and JSON body, or the exception that left
    the handler. *)
Inductive response : Type :=
| Response (status : Z) (body : pyval)
| Unhandled (e : exn).

(** The keys the JSON encoder writes: strings, numbers, booleans and
    [None]; an integer beyond the digit limit has no text. *)
Definition json_key_ok (k : pyval) : bool :=
  match k with
  | PyStr _ | PyBool _ | PyFloat _ | PyNone => true
  | PyInt z => is_ok (str_of_int z)
  | _ => false
  end.

Definition is_number (k : pyval) : bool :=
  match k with PyInt _ | PyBool _ | PyFloat _ | PyNpInt _ => true | _ => false end.

(** [jsonify] sorts the keys of every dictionary: two keys or more can be
    ordered when all are strings or all are numbers. *)
Definition sortable (keys : list pyval) : bool :=
  match keys with
  | [] | [_] => true
  | _ => forallb isinstance_str keys || forallb is_number keys
  end.

(** What [jsonify] can serialise. *)
Fixpoint json_ok (v : pyval) : bool :=
  match v with
  | PyList l => forallb json_ok l
  | PyDict d =>
      sortable (map fst d)
      && forallb (fun kv => json_key_ok (fst kv) && json_ok (snd kv)) d
  | PyInt z => is_ok (str_of_int z)
  | PyObj _ _ | PyNpInt _ => false
  | PyNone | PyBool _ | PyFloat _ | PyStr _ => true
  end.

Definition jsonify `{E : Externals} (body : pyval) : result pyval :=
  if json_ok body then Ok body else Raise (json_exn body).

(** [make_response(jsonify(body), status)] *)
Definition respond `{E : Externals} (body : pydict) (status : Z) : response :=
  match jsonify (PyDict body) with
  | Ok b => Response status b
  | Raise e => Unhandled e
  end.

(** *** Startup *)

Record app : Type := {
  PIPELINE_PACKAGE : pyval;
  REQUIRED_FEATURES : pyval;
  loader : process
}.

Section WithExternals.
Context `{E : Externals}.

Definition startup (w : world) : app :=
  match get_pipeline w initial with
  | (Ok pkg, st1) =>
      match get_required_features w st1 with
      | (Ok features, st2) =>
          {| PIPELINE_PACKAGE := pkg; REQUIRED_FEATURES := features; loader := st2 |}
      | (Raise _, st2) =>
          {| PIPELINE_PACKAGE := PyNone; REQUIRED_FEATURES := PyList []; loader := st2 |}
      end
  | (Raise _, st1) =>
      {| PIPELINE_PACKAGE := PyNone; REQUIRED_FEATURES := PyList []; loader := st1 |}
  end.

Definition health (a : app) : response :=
  respond [ (PyStr "status", PyStr "ok");
            (PyStr "model_loaded", PyBool (negb (is_none (PIPELINE_PACKAGE a)))) ]
          200.

(** *** [predict] *)

(** [[f for f in REQUIRED_FEATURES if f not in payload]] *)
Fixpoint missing_fields (features : list pyval) (payload : pydict)
  : result (list pyval) :=
  match features with
  | [] => Ok []
  | f :: rest =>
      present <- dict_mem payload f ;;
      m <- missing_fields rest payload ;;
      Ok (if present : bool then m else f :: m)
  end.

Definition type_error_message (k v : pyval) : string :=
  ("Value for '" ++ field_text k
   ++ "' is not numeric and cannot be converted to float: " ++ repr v)%string.

(** One turn of the validation loop on the field [k]. *)
Definition validate_field (payload : pydict) (acc : pydict * pydict) (k : pyval)
  : pydict * pydict :=
  let '(casted, type_errors) := acc in
  let v := match dict_lookup payload k with Some v => v | None => PyNone end in
  if isinstance_int_float v then (dict_set casted k v, type_errors)
  else
    match py_float v with
    | Ok casted_val => (dict_set casted k (PyFloat casted_val), type_errors)
    | Raise _ => (casted, dict_set type_errors k (PyStr (type_error_message k v)))
    end.

(** The loop [for k in REQUIRED_FEATURES], from [casted = {}] and
    [type_errors = {}]. *)
Definition validate_types (features : list pyval) (payload : pydict)
  : pydict * pydict :=
  fold_left (validate_field payload) features ([], []).

(** [PIPELINE_PACKAGE.get("pipeline") if isinstance(PIPELINE_PACKAGE, dict)
    else PIPELINE_PACKAGE] *)
Definition pipeline_of (package : pyval) : pyval :=
  match package with
  | PyDict d => dict_get d "pipeline"
  | p => p
  end.

(** The [try] block that runs the pipeline, with the state of the loader
    that [decode_label] leaves. *)
Definition run_pipeline (w : world) (a : app) (df : frame)
  : result pyval * process :=
  match (let pipeline_obj := pipeline_of (PIPELINE_PACKAGE a) in
         preds <- pipeline_predict pipeline_obj df ;;
         probs <- pipeline_predict_proba pipeline_obj df ;;
         pred_raw <- first preds ;;
         row <- first probs ;;
         prob <- ndarray_max row ;;
         Ok (pred_raw, prob)) with
  | Raise e => (Raise e, loader a)
  | Ok (pred_raw, prob) =>
      match decode_label w (loader a) pred_raw with
      | (Raise e, st) => (Raise e, st)
      | (Ok decoded, st) =>
          (jsonify (PyDict [ (PyStr "prediction", decoded);
                             (PyStr "confidence", PyFloat (py_round prob 4)) ]),
           st)
      end
  end.

Definition with_loader (a : app) (st : process) : app :=
  {| PIPELINE_PACKAGE := PIPELINE_PACKAGE a;
     REQUIRED_FEATURES := REQUIRED_FEATURES a;
     loader := st |}.

Definition predict (w : world) (a : app) (req : request) : response * app :=
  if is_none (PIPELINE_PACKAGE a) then
    (respond [ (PyStr "error", PyStr "Model not loaded") ] 500, a)
  else
    match req with
    | NotJson => (respond [ (PyStr "error", PyStr "Expected JSON body") ] 400, a)
    | InvalidJson => (respond [ (PyStr "error", PyStr "Invalid JSON body") ] 400, a)
    | JsonBody (PyDict payload) =>
        match (features <- py_list (REQUIRED_FEATURES a) ;;
               missing <- missing_fields features payload ;;
               Ok (features, missing)) with
        | Raise e => (Unhandled e, a)
        | Ok (features, f :: m) =>
            (respond [ (PyStr "error", PyStr "Missing required fields");
                       (PyStr "missing_fields", PyList (f :: m)) ] 400, a)
        | Ok (features, []) =>
            match validate_types features payload with
            | (casted, e :: es) =>
                (respond [ (PyStr "error", PyStr "Wrong types for fields");
                           (PyStr "details", PyDict (e :: es)) ] 400, a)
            | (casted, []) =>
                match DataFrame [casted] (REQUIRED_FEATURES a) with
                | Raise _ =>
                    (respond [ (PyStr "error",
                                PyStr "Internal server error while preparing input") ]
                             500, a)
                | Ok df =>
                    match run_pipeline w a df with
                    | (Ok body, st) => (Response 200 body, with_loader a st)
                    | (Raise e, st) =>
                        (respond [ (PyStr "error",
                                    PyStr "Internal server error during prediction");
                                   (PyStr "message", PyStr (exn_str e)) ] 500,
                         with_loader a st)
                    end
                end
            end
        end
    | JsonBody _ =>
        (respond [ (PyStr "error", PyStr "Expected JSON object (dictionary)") ] 400, a)
    end.

End WithExternals.

End App.

(** ** Concurrent callers of [get_pipeline]

    Request threads interleave between the statements of [_ensure_loaded]
    and [get_pipeline] (one statement at a time, as under the interpreter
    lock); [_cache_lock] is held by at most one of them. *)

Module Concurrent.
Import Py ModelLoader.
Local Open Scope py_scope.

(** Where a caller stands. *)
Inductive pc : Type :=
| Idle                          (* not a caller *)
| Start                         (* before the first [if _model_cache["loaded"]] *)
| Acquire                       (* before [with _cache_lock] *)
| Locked                        (* holds the lock, before the second test *)
| Loading                       (* holds the lock, before [_load_model_file()] *)
| Store (pkg : pydict)          (* before [_model_cache["package"] = package] *)
| Flag                          (* before [_model_cache["loaded"] = True] *)
| Release (raised : option exn) (* leaving the [with] block *)
| Read                          (* before [return _model_cache["package"]] *)
| Done (v : pyval)              (* [get_pipeline] returned [v] *)
| Failed (e : exn).             (* [get_pipeline] raised [e] *)

Record config : Type := {
  proc : process;
  lock : option nat;            (* the thread holding [_cache_lock] *)
  pcs : nat -> pc
}.

Definition upd (f : nat -> pc) (i : nat) (p : pc) : nat -> pc :=
  fun j => if Nat.eqb j i then p else f j.

Definition goto (c : config) (i : nat) (p : pc) : config :=
  {| proc := proc c; lock := lock c; pcs := upd (pcs c) i p |}.

Definition with_proc (c : config) (st : process) : config :=
  {| proc := st; lock := lock c; pcs := pcs c |}.

Definition with_lock (c : config) (l : option nat) : config :=
  {| proc := proc c; lock := l; pcs := pcs c |}.

Definition set_package (st : process) (p : pyval) : process :=
  {| _model_cache := {| loaded := loaded (_model_cache st); package := p |};
     joblib_loads := joblib_loads st |}.

Definition set_loaded (st : process) (b : bool) : process :=
  {| _model_cache := {| loaded := b; package := package (_model_cache st) |};
     joblib_loads := joblib_loads st |}.

(** [n] callers, none of which has started. *)
Definition init (n : nat) : config :=
  {| proc := initial;
     lock := None;
     pcs := fun i => if Nat.ltb i n then Start else Idle |}.

Section WithExternals.
Context `{E : Externals}.

(** One statement of thread [i]; [None] when the thread waits for the lock
    or has nothing left to do. *)
Definition thread_step (w : world) (c : config) (i : nat) : option config :=
  match pcs c i with
  | Idle | Done _ | Failed _ => None
  | Start =>
      Some (goto c i (if loaded (_model_cache (proc c)) then Read else Acquire))
  | Acquire =>
      match lock c with
      | None => Some (goto (with_lock c (Some i)) i Locked)
      | Some _ => None
      end
  | Locked =>
      Some (goto c i (if loaded (_model_cache (proc c))
                      then Release None else Loading))
  | Loading =>
      match prepare w (proc c) with
      | (Ok pkg, st1) => Some (goto (with_proc c st1) i (Store pkg))
      | (Raise e, st1) => Some (goto (with_proc c st1) i (Release (Some e)))
      end
  | Store pkg =>
      Some (goto (with_proc c (set_package (proc c) (PyDict pkg))) i Flag)
  | Flag =>
      Some (goto (with_proc c (set_loaded (proc c) true)) i (Release None))
  | Release raised =>
      Some (goto (with_lock c None) i
                 (match raised with None => Read | Some e => Failed e end))
  | Read => Some (goto c i (Done (package (_model_cache (proc c)))))
  end.

(** The configuration after a schedule: the thread named next takes one
    step if it can. *)
Fixpoint run (w : world) (c : config) (sched : list nat) : config :=
  match sched with
  | [] => c
  | i :: rest =>
      match thread_step w c i with
      | Some c' => run w c' rest
      | None => run w c rest
      end
  end.

End WithExternals.

Definition finished (p : pc) : bool :=
  match p with Idle | Done _ | Failed _ => true | _ => false end.

Definition critical (p : pc) : bool :=
  match p with
  | Locked | Loading | Store _ | Flag | Release _ => true
  | _ => false
  end.

(** What a caller standing at [p] knows of the process, when the load
    succeeds with the package [good]. *)
Definition pc_ok (good : pydict) (st : process) (p : pc) : Prop :=
  match p with
  | Loading => loaded (_model_cache st) = false /\ joblib_loads st = 0%nat
  | Store pkg =>
      pkg = good /\ loaded (_model_cache st) = false /\ joblib_loads st = 1%nat
  | Flag =>
      package (_model_cache st) = PyDict good
      /\ loaded (_model_cache st) = false /\ joblib_loads st = 1%nat
  | Release None | Read => loaded (_model_cache st) = true
  | Done v => v = PyDict good /\ loaded (_model_cache st) = true
  | Release (Some _) | Failed _ => False
  | Idle | Start | Acquire | Locked => True
  end.

(** A bound on the statements a caller still has to run. *)
Definition remaining (p : pc) : nat :=
  match p with
  | Start => 8
  | Acquire => 7
  | Locked => 6
  | Loading => 5
  | Store _ => 4
  | Flag => 3
  | Release _ => 2
  | Read => 1
  | Idle | Done _ | Failed _ => 0
  end.

(** The statements the first [n] threads still have to run, at most. *)
Fixpoint work (n : nat) (f : nat -> pc) : nat :=
  match n with
  | O => 0
  | S k => remaining (f k) + work k f
  end.

Definition storing (p : pc) : bool :=
  match p with Store _ | Flag => true | _ => false end.

(** The invariant of the interleavings. *)
Record invariant (good : pydict) (c : config) : Prop := {
  inv_lock : forall i, critical (pcs c i) = true <-> lock c = Some i;
  inv_pc : forall i, pc_ok good (proc c) (pcs c i);
  inv_loaded :
    loaded (_model_cache (proc c)) = true ->
    package (_model_cache (proc c)) = PyDict good /\ joblib_loads (proc c) = 1%nat;
  inv_unloaded :
    loaded (_model_cache (proc c)) = false ->
    joblib_loads (proc c) = 0%nat \/ exists i, storing (pcs c i) = true
}.

End Concurrent.

(** ** Stand-ins and reading aids used in the statements *)

Module Spec.
Import Py ModelLoader App.
Local Open Scope py_scope.

(** 0.1, 0.9 and 3.5 as binary64 values. *)
Definition f_0_1 : spec_float := S754_finite false 7205759403792794 (-56).
Definition f_0_9 : spec_float := S754_finite false 8106479329266893 (-53).
Definition f_3_5 : spec_float := S754_finite false 7881299347898368 (-51).
Definition f_2_5 : spec_float := S754_finite false 5629499534213120 (-51).

(** 0.12345, 0.87655 and 0.8766 as binary64 values. *)
Definition f_0_12345 : spec_float := S754_finite false 8895509983982204 (-56).
Definition f_0_87655 : spec_float := S754_finite false 7895260506743217 (-53).
Definition f_0_8766 : spec_float := S754_finite false 7895710866705954 (-53).

Definition is_nan (x : spec_float) : bool :=
  match x with S754_nan => true | _ => false end.

Definition float_max (a b : spec_float) : spec_float :=
  if is_nan a then a
  else if is_nan b then b
  else if SFltb a b then b else a.

(** A maximum of a row as the stand-ins compute it: [ValueError] on an
    empty row, [nan] as soon as one entry is, the earlier of two entries
    that compare equal. *)
Definition row_max (row : list spec_float) : result spec_float :=
  match row with
  | [] => Raise ValueError
  | x :: r => Ok (fold_left float_max r x)
  end.

(** A pipeline that always predicts class [1] with probabilities
    [[0.1, 0.9]], and a [DataFrame] that keeps what it is given. *)
Definition stub : Externals := {|
  repr := fun _ => "<repr>";
  str_of_value := fun _ => Ok "<str>";
  exn_str := fun _ => "<exception>";
  json_exn := fun _ => TypeError;
  DataFrame := fun rows cols => Ok {| columns := cols; rows := rows |};
  pipeline_predict := fun _ _ => Ok [PyInt 1];
  pipeline_predict_proba := fun _ _ => Ok [[f_0_1; f_0_9]];
  ndarray_max := row_max
|}.

(** A pipeline as scikit-learn fits them: the class it predicts is a numpy
    integer, here [1] with the probabilities [[0.12345, 0.87655]]. *)
Definition numpy_stub : Externals := {|
  repr := fun _ => "<repr>";
  str_of_value := fun _ => Ok "<str>";
  exn_str := fun _ => "<exception>";
  json_exn := fun _ => TypeError;
  DataFrame := fun rows cols => Ok {| columns := cols; rows := rows |};
  pipeline_predict := fun _ _ => Ok [PyNpInt 1];
  pipeline_predict_proba := fun _ _ => Ok [[f_0_12345; f_0_87655]];
  ndarray_max := row_max
|}.

(** An artifact saved as a container. *)
Definition artifact (pipeline features label_map : pyval) : pyval :=
  PyDict [ (PyStr "pipeline", pipeline);
           (PyStr "required_raw_features", features);
           (PyStr "label_mapping", label_map) ].

Definition on_disk (obj : pyval) : world := Some (Ok obj).

Definition some_pipeline : pyval := PyObj "Pipeline" [].

(** The coercion of one value by the validation loop. *)
Definition coerce (v : pyval) : result pyval :=
  if isinstance_int_float v then Ok v
  else f <- py_float v ;; Ok (PyFloat f).

(** A non-empty string of decimal digits. *)
Definition decimal_string (s : string) : bool :=
  match chars s with
  | [] => false
  | l => forallb is_decimal l
  end.

(** The id a prediction denotes, when it is an [int] (a [bool] is one) or
    a string of decimal digits, no more of them than the limit. *)
Definition prediction_id (prediction : pyval) : option Z :=
  match prediction with
  | PyInt z => Some z
  | PyBool b => Some (if b then 1 else 0)
  | PyStr s =>
      if decimal_string s && (Z.of_nat (String.length s) <=? max_str_digits)
      then Some (digits_value (chars s))
      else None
  | _ => None
  end.

(** The name the codec of a package gives to an id. *)
Definition codec_name (package : pydict) (pid : Z) : option pyval :=
  match dict_get package "_label_id_to_name" with
  | PyDict id_to_name => dict_lookup id_to_name (PyInt pid)
  | _ => None
  end.

(** The decode contract, case by case: an id is answered with its name in
    the codec, or else with its text, which does not exist beyond the digit
    limit; another string with itself; another value with its [str], when
    it has one. *)
Definition decode_spec `{E : Externals} (package : pydict) (prediction : pyval)
  : result pyval :=
  match prediction_id prediction with
  | Some pid =>
      match codec_name package pid with
      | Some name => Ok name
      | None => text <- str_of_int pid ;; Ok (PyStr text)
      end
  | None =>
      match prediction with
      | PyStr s => Ok (PyStr s)
      | _ => text <- py_str prediction ;; Ok (PyStr text)
      end
  end.

(** The predictions [decode_label] has no answer for: an [int] beyond the
    digit limit that the codec does not name, and a value, neither [int] nor
    [str], whose [str] raises. *)
Definition undecodable `{E : Externals} (package : pydict) (prediction : pyval) : Prop :=
  (exists z, prediction = PyInt z
             /\ codec_name package z = None
             /\ is_ok (str_of_int z) = false)
  \/ (isinstance_int prediction = false
      /\ isinstance_str prediction = false
      /\ is_ok (py_str prediction) = false).

(** The least integer beyond the digit limit; the id 1 written with 4301
    digits; the superscript two, a digit that is not decimal. *)
Definition beyond_limit : Z := 10 ^ max_str_digits.



(** [k] is the integer nearest to [num / den], the even one of two that are
    equally near. *)
Definition nearest_integer (num den k : Z) : Prop :=
  2 * Z.abs (num - k * den) <= den
  /\ (2 * Z.abs (num - k * den) = den -> Z.even k = true).

(** [y] is [x] rounded to [n] decimal places.  For a finite
    [x = (-1)^s * m * 2^e], of which [|x| * 10^n] is the fraction
    [m * 10^n * 2^max(e,0) / 2^max(-e,0)], [y] is the float nearest to
    [(-1)^s * k / 10^n], where [k] is the integer nearest to [|x| * 10^n];
    zeros, infinities and [nan] are left as they are. *)
Definition rounded_to (n : Z) (x y : spec_float) : Prop :=
  match x with
  | S754_finite s m e =>
      exists k,
        nearest_integer (Z.pos m * 10 ^ n * 2 ^ Z.max e 0) (2 ^ Z.max (- e) 0) k
        /\ y = float_of_decimal s k (- n)
  | _ => y = x
  end.

(** The column list of the step named [selector] of a pipeline, when the
    pipeline has one that carries [required_columns]. *)
Definition selector_columns (pipeline : pyval) : option (list pyval) :=
  match pipeline with
  | PyObj _ attrs =>
      match assoc_str attrs "named_steps" with
      | Some (PyDict steps) =>
          match dict_lookup steps (PyStr "selector") with
          | Some (PyObj _ sel_attrs) =>
              match assoc_str sel_attrs "required_columns" with
              | Some cols =>
                  match py_list cols with Ok l => Some l | Raise _ => None end
              | None => None
              end
          | _ => None
          end
      | _ => None
      end
  | _ => None
  end.

(** The schema by precedence: the declared list, else the selector's
    columns, else nothing. *)
Definition schema_spec (package : pydict) : pyval :=
  match dict_get package "required_raw_features" with
  | PyNone =>
      match selector_columns (dict_get package "pipeline") with
      | Some l => PyList l
      | None => PyList []
      end
  | declared => declared
  end.

(** A label mapping keyed by id, and one keyed by name, as dictionaries. *)
Definition id_keyed (m : list (Z * string)) : pyval :=
  PyDict (map (fun e => (PyInt (fst e), PyStr (snd e))) m).

Definition name_keyed (m : list (string * Z)) : pyval :=
  PyDict (map (fun e => (PyStr (fst e), PyInt (snd e))) m).

Definition by_id_example : pyval := id_keyed [(0, "BENIGN"); (1, "DDoS")].
Definition by_name_example : pyval := name_keyed [("BENIGN", 0); ("DDoS", 1)].

(** The dictionary after the writes [d[i] = v] for the [(i, v)] of a list,
    in order. *)
Definition set_all (entries : list (Z * pyval)) (d : pydict) : pydict :=
  fold_left (fun acc e => dict_set acc (PyInt (fst e)) (snd e)) entries d.

Definition entries_by_id (m : list (Z * string)) : list (Z * pyval) :=
  map (fun e => (fst e, PyStr (snd e))) m.

Definition entries_by_name (m : list (string * Z)) : list (Z * pyval) :=
  map (fun e => (snd e, PyStr (fst e))) m.

(** An artifact whose pipeline is fine and whose label mapping has an
    entry that is no id either way round. *)
Definition bad_labels : world :=
  on_disk (artifact some_pipeline PyNone (PyDict [(PyStr "BENIGN", PyStr "benign")])).

(** The two say the same: [(i, n)] is in one when [(n, i)] is in the other. *)
Definition same_mapping (by_id : list (Z * string)) (by_name : list (string * Z)) : Prop :=
  forall i n, In (i, n) by_id <-> In (n, i) by_name.

(** The states of the loader a process can be in: any sequence of calls of
    the three entry points, whatever is on disk at each call. *)
Inductive reachable `{E : Externals} : process -> Prop :=
| reach_initial : reachable initial
| reach_get_pipeline w st :
    reachable st -> reachable (snd (get_pipeline w st))
| reach_get_required_features w st :
    reachable st -> reachable (snd (get_required_features w st))
| reach_decode_label w st prediction :
    reachable st -> reachable (snd (decode_label w st prediction)).

(** A package as [_ensure_loaded] caches it. *)
Definition well_formed (pkg : pydict) : Prop :=
  is_none (dict_get pkg "pipeline") = false
  /\ (exists v, dict_lookup pkg (PyStr "_label_id_to_name") = Some v)
  /\ (exists v, dict_lookup pkg (PyStr "_label_name_to_id") = Some v)
  /\ (dict_get pkg "_label_id_to_name" = PyNone
      \/ exists d, dict_get pkg "_label_id_to_name" = PyDict d).

(** The invariant of the cache. *)
Definition cache_ok (st : process) : Prop :=
  loaded (_model_cache st) = true ->
  exists pkg, package (_model_cache st) = PyDict pkg /\ well_formed pkg.

(** The fields of a schema absent from a payload, in schema order. *)
Definition absent (names : list string) (payload : pydict) : list string :=
  filter (fun n => match dict_lookup payload (PyStr n) with
                   | Some _ => false
                   | None => true
                   end) names.

Definition names_list (names : list string) : pyval := PyList (map PyStr names).

(** The value the loop reads for a field. *)
Definition field_value (payload : pydict) (n : string) : pyval :=
  match dict_lookup payload (PyStr n) with Some v => v | None => PyNone end.

(** A field fails when its value is neither a number nor convertible. *)
Definition fails (payload : pydict) (n : string) : bool :=
  negb (is_ok (coerce (field_value payload n))).

(** What the loop records for a failing field, and the answer it causes. *)
Definition reported `{E : Externals} (w w' : world) (payload casted errs : pydict) (n : string)
           (v : pyval) : Prop :=
  dict_lookup casted (PyStr n) = None
  /\ dict_lookup errs (PyStr n) = Some (PyStr (type_error_message (PyStr n) v))
  /\ predict w' (startup w) (JsonBody (PyDict payload))
     = (Response 400
          (PyDict [ (PyStr "error", PyStr "Wrong types for fields");
                    (PyStr "details", PyDict errs) ]),
        startup w).

(** An artifact with the schema [a, b] and the codec [{1: "DDoS"}]. *)
Definition two_fields : world :=
  on_disk (artifact some_pipeline (names_list ["a"; "b"])
                    (PyDict [(PyInt 1, PyStr "DDoS")])).

(** Entries whose key and value are both strings. *)
Definition str_entry (kv : pyval * pyval) : Prop :=
  exists k m, kv = (PyStr k, PyStr m).

End Spec.

(** ** Facts about the builtins *)

Module PyFacts.
Import Py.
Local Open Scope py_scope.

(** The parsers on inputs whose results were taken from the interpreter. *)
Example float_of_str_examples :
  float_of_str "3.5" = Some Spec.f_3_5
  /\ float_of_str "  2.5  " = Some Spec.f_2_5
  /\ float_of_str "0.1" = Some Spec.f_0_1
  /\ float_of_str "1e23" = Some (S754_finite false 5960464477539062 24)
  /\ float_of_str "1_0.5_5e1_0" = Some (S754_finite false 6914048000000000 (-16))
  /\ float_of_str "4.9e-324" = Some (S754_finite false 1 (-1074))
  /\ float_of_str "1e999" = Some (S754_infinity false)
  /\ float_of_str "-Infinity" = Some (S754_infinity true)
  /\ float_of_str "NaN" = Some S754_nan
  /\ float_of_str "-0" = Some (S754_zero true)
  /\ map float_of_str ["abc"; ""; "."; "1e"; "1_.5"; "1__0"; "0x1p3"; "1 .5"; "infi"]
     = [None; None; None; None; None; None; None; None; None].
Proof. repeat split; reflexivity. Qed.

Example int_of_str_examples :
  map int_of_str [" 42 "; "-1_000"; "007"; "+1"]
  = [Some 42; Some (-1000); Some 7; Some 1]
  /\ map int_of_str ["DDoS"; ""; "+"; "1.0"; "1e3"; "_1"; "1_"; "0x10"; "1 2"]
     = [None; None; None; None; None; None; None; None; None]
  /\ map str_of_int [0; 7; -12] = [Ok "0"; Ok "7"; Ok "-12"].
Proof. repeat split; reflexivity. Qed.

Lemma key_eqb_str_r (k : pyval) (s : string) :
  key_eqb k (PyStr s) = true <-> k = PyStr s.
Proof.
  destruct k as [| b | z | f | t | l | d | c a | nz]; simpl;
    try (split; [discriminate | discriminate]).
  rewrite String.eqb_eq. split; [intros -> | intros [= ->]]; reflexivity.
Qed.

Lemma key_eqb_str_refl (s : string) : key_eqb (PyStr s) (PyStr s) = true.
Proof. apply key_eqb_str_r. reflexivity. Qed.

(** Reading a dictionary after a write, at string keys. *)
Lemma dict_lookup_set_str (d : pydict) (k k' : string) (v : pyval) :
  dict_lookup (dict_set d (PyStr k) v) (PyStr k')
  = if (k =? k')%string then Some v else dict_lookup d (PyStr k').
Proof.
  induction d as [| [a x] d IH]; simpl.
  - destruct (k =? k')%string; reflexivity.
  - destruct (key_eqb a (PyStr k)) eqn:A; simpl.
    + apply key_eqb_str_r in A. subst a. simpl.
      destruct (k =? k')%string; reflexivity.
    + destruct (key_eqb a (PyStr k')) eqn:A'.
      * apply key_eqb_str_r in A'. subst a.
        destruct (String.eqb_spec k k') as [-> | N]; [| reflexivity].
        rewrite key_eqb_str_refl in A. discriminate.
      * apply IH.
Qed.

Lemma float_eq_int_inj (f : spec_float) (i j : Z) :
  float_eq_int f i = true -> float_eq_int f j = true -> i = j.
Proof.
  destruct f as [s | s | | s m e]; simpl; try discriminate.
  - rewrite !Z.eqb_eq. congruence.
  - destruct (0 <=? e) eqn:He; rewrite !Z.eqb_eq.
    + congruence.
    + intros Hi Hj. apply Z.leb_gt in He.
      assert (P : 0 < 2 ^ (- e)) by (apply Z.pow_pos_nonneg; lia).
      rewrite <- Hj in Hi. apply Z.mul_cancel_r in Hi; lia.
Qed.

Lemma key_eqb_int_inj (k : pyval) (i j : Z) :
  key_eqb k (PyInt i) = true -> key_eqb k (PyInt j) = true -> i = j.
Proof.
  destruct k as [| b | z | f | t | l | d | c a | nz]; simpl; try discriminate.
  - rewrite !Z.eqb_eq. congruence.
  - rewrite !Z.eqb_eq. congruence.
  - apply float_eq_int_inj.
  - rewrite !Z.eqb_eq. congruence.
Qed.

(** Reading a dictionary after a write, at integer keys. *)
Lemma dict_lookup_set_int (d : pydict) (i j : Z) (v : pyval) :
  dict_lookup (dict_set d (PyInt i) v) (PyInt j)
  = if i =? j then Some v else dict_lookup d (PyInt j).
Proof.
  induction d as [| [a x] d IH]; simpl.
  - destruct (i =? j); reflexivity.
  - destruct (key_eqb a (PyInt i)) eqn:A; simpl.
    + destruct (Z.eqb_spec i j) as [-> | N].
      * rewrite A. reflexivity.
      * destruct (key_eqb a (PyInt j)) eqn:A'; [| reflexivity].
        exfalso. apply N. eapply key_eqb_int_inj; eassumption.
    + destruct (key_eqb a (PyInt j)) eqn:A'.
      * destruct (Z.eqb_spec i j) as [-> | N]; [congruence | reflexivity].
      * apply IH.
Qed.

Lemma dict_get_set (d : pydict) (k k' : string) (v : pyval) :
  dict_get (dict_set d (PyStr k) v) k'
  = if (k =? k')%string then v else dict_get d k'.
Proof.
  unfold dict_get. rewrite dict_lookup_set_str.
  destruct (k =? k')%string; reflexivity.
Qed.

(** An empty dictionary has no member, so [d and k in d] is [k in d]. *)
Lemma truthy_dict_lookup (d : pydict) (k : pyval) :
  truthy (PyDict d) = false -> dict_lookup d k = None.
Proof. destruct d; [reflexivity | discriminate]. Qed.

(** *** Strings of decimal digits *)

Lemma is_decimal_not_space (c : ascii) : is_decimal c = true -> is_space c = false.
Proof.
  unfold is_decimal, is_space. intros H.
  apply andb_true_iff in H. destruct H as [A B].
  apply Z.leb_le in A. apply Z.leb_le in B.
  repeat match goal with
         | |- context [?a <=? ?b] => destruct (Z.leb_spec a b)
         | |- context [?a =? ?b] => destruct (Z.eqb_spec a b)
         end; simpl; try reflexivity; lia.
Qed.

Lemma is_decimal_not_sign (c : ascii) :
  is_decimal c = true -> (code c =? 45) = false /\ (code c =? 43) = false /\ (code c =? 95) = false.
Proof.
  unfold is_decimal. intros H.
  apply andb_true_iff in H. destruct H as [A B].
  apply Z.leb_le in A. apply Z.leb_le in B.
  repeat split; apply Z.eqb_neq; lia.
Qed.

Lemma lstrip_decimal (c : ascii) (l : list ascii) :
  is_decimal c = true -> lstrip (c :: l) = c :: l.
Proof. intros H. simpl. rewrite (is_decimal_not_space _ H). reflexivity. Qed.

Lemma strip_decimals (l : list ascii) :
  forallb is_decimal l = true -> strip l = l.
Proof.
  intros H. unfold strip.
  assert (L : forall l', forallb is_decimal l' = true -> lstrip l' = l').
  { intros [| c r] Hr; [reflexivity |]. simpl in Hr.
    apply andb_true_iff in Hr. apply lstrip_decimal. tauto. }
  rewrite (L l H). rewrite L.
  - apply rev_involutive.
  - rewrite forallb_forall in *. intros x Hx. apply H. apply in_rev. exact Hx.
Qed.

Lemma int_digits_decimals (l : list ascii) (b : bool) :
  forallb is_decimal l = true -> (l <> [] \/ b = true) -> int_digits b l = Some l.
Proof.
  revert b. induction l as [| c r IH]; intros b H N; simpl.
  - destruct N as [N | ->]; [contradiction | reflexivity].
  - simpl in H. apply andb_true_iff in H. destruct H as [Hc Hr].
    rewrite Hc. rewrite (IH true Hr); [reflexivity | right; reflexivity].
Qed.

Lemma chars_length (s : string) : List.length (chars s) = String.length s.
Proof. unfold chars. induction s as [| c s IH]; simpl; congruence. Qed.

Lemma int_of_str_decimal (s : string) :
  Spec.decimal_string s = true ->
  int_of_str s
  = if Z.of_nat (String.length s) <=? max_str_digits
    then Some (digits_value (chars s))
    else None.
Proof.
  unfold Spec.decimal_string, int_of_str. rewrite <- chars_length.
  destruct (chars s) as [| c r] eqn:C; [discriminate |].
  intros H. rewrite (strip_decimals _ H).
  assert (Hc : is_decimal c = true) by (simpl in H; apply andb_true_iff in H; tauto).
  destruct (is_decimal_not_sign _ Hc) as (M & P & _).
  unfold split_sign. rewrite M, P.
  rewrite int_digits_decimals; [reflexivity | exact H | left; discriminate].
Qed.

Lemma str_isdigit_decimal (s : string) :
  Spec.decimal_string s = true -> str_isdigit s = true.
Proof.
  unfold Spec.decimal_string, str_isdigit.
  destruct (chars s) as [| c r]; [discriminate |].
  intros H. rewrite forallb_forall in *. intros x Hx.
  unfold is_digit_char. rewrite (H x Hx). reflexivity.
Qed.

(** A digit that is not decimal (a superscript) is neither white space nor
    a sign nor an underscore. *)
Lemma digit_char_plain (c : ascii) :
  is_digit_char c = true ->
  is_space c = false /\ (code c =? 45) = false /\ (code c =? 43) = false
  /\ (is_decimal c = false -> (code c =? 95) = false).
Proof.
  unfold is_digit_char, is_decimal, is_space. intros H.
  repeat match goal with
         | H : context [?a <=? ?b] |- _ => destruct (Z.leb_spec a b)
         | H : context [?a =? ?b] |- _ => destruct (Z.eqb_spec a b)
         | |- context [?a <=? ?b] => destruct (Z.leb_spec a b)
         | |- context [?a =? ?b] => destruct (Z.eqb_spec a b)
         end; simpl in *; repeat split; try reflexivity; try discriminate; try lia.
Qed.

Lemma int_digits_some_decimals (l ds : list ascii) (b : bool) :
  forallb is_digit_char l = true -> int_digits b l = Some ds ->
  forallb is_decimal l = true.
Proof.
  revert b ds. induction l as [| c r IH]; intros b ds H D; [reflexivity |].
  simpl in H. apply andb_true_iff in H. destruct H as [Hc Hr].
  simpl in D. simpl. destruct (is_decimal c) eqn:Dc.
  - destruct (int_digits true r) eqn:R; [| discriminate]. simpl. eauto.
  - destruct (digit_char_plain _ Hc) as (_ & _ & _ & U).
    rewrite (U Dc) in D. discriminate.
Qed.

(** On a string of digits, [int] succeeds exactly on the decimal ones. *)
Lemma int_of_str_isdigit (s : string) :
  str_isdigit s = true -> Spec.decimal_string s = false -> int_of_str s = None.
Proof.
  unfold str_isdigit, Spec.decimal_string, int_of_str.
  destruct (chars s) as [| c r] eqn:C; [discriminate |].
  intros H ND.
  assert (S : strip (c :: r) = c :: r).
  { unfold strip.
    assert (L : forall l', forallb is_digit_char l' = true -> lstrip l' = l').
    { intros [| x l'] Hl; [reflexivity |]. simpl in Hl.
      apply andb_true_iff in Hl. destruct Hl as [Hx _].
      simpl. destruct (digit_char_plain _ Hx) as (Sx & _). rewrite Sx. reflexivity. }
    rewrite (L _ H). rewrite L; [apply rev_involutive |].
    rewrite forallb_forall in *. intros x Hx. apply H. apply in_rev. exact Hx. }
  rewrite S.
  assert (Hc : is_digit_char c = true) by (simpl in H; apply andb_true_iff in H; tauto).
  destruct (digit_char_plain _ Hc) as (_ & M & P & _).
  unfold split_sign. rewrite M, P.
  destruct (int_digits false (c :: r)) eqn:D; [| reflexivity].
  rewrite (int_digits_some_decimals _ _ _ H D) in ND. discriminate.
Qed.

End PyFacts.

(** ** The decimal text of an integer *)

Module TextFacts.
Import Py Spec PyFacts.
Local Open Scope py_scope.

Lemma digits_acc (u : Decimal.uint) (acc : positive) :
  fold_left (fun a c => 10 * a + digit_value c)
            (chars (NilEmpty.string_of_uint u)) (Z.pos acc)
  = Z.pos (Pos.of_uint_acc u acc).
Proof.
  revert acc. unfold chars.
  induction u as [| u IH | u IH | u IH | u IH | u IH | u IH | u IH | u IH | u IH | u IH];
    intros acc; [reflexivity | ..];
    cbn [NilEmpty.string_of_uint list_ascii_of_string fold_left Pos.of_uint_acc];
    rewrite <- IH; f_equal; unfold digit_value;
    match goal with
    | |- context [code ?c] =>
        let v := eval vm_compute in (code c) in change (code c) with v
    end; lia.
Qed.

Lemma digits_of_uint (u : Decimal.uint) :
  digits_value (chars (NilEmpty.string_of_uint u)) = Z.of_N (Pos.of_uint u).
Proof.
  unfold digits_value, chars.
  induction u as [| u IH | u IH | u IH | u IH | u IH | u IH | u IH | u IH | u IH | u IH];
    [reflexivity | exact IH | ..];
    cbn [NilEmpty.string_of_uint list_ascii_of_string fold_left Pos.of_uint Z.of_N];
    rewrite <- digits_acc; reflexivity.
Qed.

Lemma uint_chars_decimal (u : Decimal.uint) :
  forallb is_decimal (chars (NilEmpty.string_of_uint u)) = true.
Proof.
  unfold chars.
  induction u as [| u IH | u IH | u IH | u IH | u IH | u IH | u IH | u IH | u IH | u IH];
    [reflexivity | ..];
    cbn [NilEmpty.string_of_uint list_ascii_of_string forallb];
    rewrite IH; reflexivity.
Qed.

Lemma uint_chars_length (u : Decimal.uint) :
  List.length (chars (NilEmpty.string_of_uint u)) = Decimal.nb_digits u.
Proof.
  unfold chars.
  induction u as [| u IH | u IH | u IH | u IH | u IH | u IH | u IH | u IH | u IH | u IH];
    [reflexivity | ..];
    cbn [NilEmpty.string_of_uint list_ascii_of_string List.length Decimal.nb_digits];
    rewrite IH; reflexivity.
Qed.

(** Every run of decimal digits is the text of a [uint]. *)
Lemma decimals_uint (l : list ascii) :
  forallb is_decimal l = true ->
  exists u, chars (NilEmpty.string_of_uint u) = l.
Proof.
  induction l as [| c r IH]; intros H; [exists Decimal.Nil; reflexivity |].
  simpl in H. apply andb_true_iff in H. destruct H as [Hc Hr].
  destruct (IH Hr) as (u & <-). clear IH Hr.
  destruct c as [[] [] [] [] [] [] [] []]; try discriminate Hc;
    first [ exists (Decimal.D0 u); reflexivity | exists (Decimal.D1 u); reflexivity
          | exists (Decimal.D2 u); reflexivity | exists (Decimal.D3 u); reflexivity
          | exists (Decimal.D4 u); reflexivity | exists (Decimal.D5 u); reflexivity
          | exists (Decimal.D6 u); reflexivity | exists (Decimal.D7 u); reflexivity
          | exists (Decimal.D8 u); reflexivity | exists (Decimal.D9 u); reflexivity ].
Qed.

Lemma decimal_pos (p : positive) :
  decimal (Z.pos p) = NilEmpty.string_of_uint (Pos.to_uint p).
Proof.
  unfold decimal. simpl.
  pose proof (Unsigned.to_uint_nonnil p) as N.
  destruct (Pos.to_uint p); [contradiction | ..]; reflexivity.
Qed.

Lemma uint_string_nonempty (p : positive) :
  chars (NilEmpty.string_of_uint (Pos.to_uint p)) <> [].
Proof.
  pose proof (Unsigned.to_uint_nonnil p) as N.
  destruct (Pos.to_uint p); [contradiction | ..]; discriminate.
Qed.

(** The text of a natural number is a string of decimal digits that
    writes it. *)
Lemma decimal_text (z : Z) :
  0 <= z ->
  decimal_string (decimal z) = true
  /\ digits_value (chars (decimal z)) = z.
Proof.
  intros H. destruct z as [| p | p]; [split; reflexivity | | lia].
  rewrite decimal_pos. split.
  - unfold decimal_string.
    pose proof (uint_string_nonempty p) as N.
    pose proof (uint_chars_decimal (Pos.to_uint p)) as D.
    destruct (chars (NilEmpty.string_of_uint (Pos.to_uint p))); [contradiction | exact D].
  - rewrite digits_of_uint, Unsigned.of_to. reflexivity.
Qed.

(** The text of the number a run of digits writes is no longer than the
    run. *)
Lemma decimal_length (l : list ascii) :
  forallb is_decimal l = true ->
  l <> [] ->
  (String.length (decimal (digits_value l)) <= List.length l)%nat.
Proof.
  intros D N. destruct (decimals_uint l D) as (u & <-).
  rewrite digits_of_uint, uint_chars_length.
  assert (U : u <> Decimal.Nil) by (intros ->; apply N; reflexivity).
  destruct (Pos.of_uint u) as [| p] eqn:P.
  - simpl. destruct u; [contradiction | ..]; simpl; lia.
  - cbn [Z.of_N]. rewrite decimal_pos, <- chars_length, uint_chars_length.
    pose proof (Unsigned.to_of u) as T. rewrite P in T. simpl in T. rewrite T.
    apply DecimalFacts.nb_digits_unorm. exact U.
Qed.

(** [str] returns on the id that a string within the digit limit
    writes. *)
Lemma str_of_int_digits (s : string) :
  decimal_string s = true ->
  (Z.of_nat (String.length s) <=? max_str_digits) = true ->
  str_of_int (digits_value (chars s)) = Ok (decimal (digits_value (chars s))).
Proof.
  unfold decimal_string. intros D L.
  assert (N : chars s <> []) by (destruct (chars s); [discriminate | discriminate]).
  assert (D' : forallb is_decimal (chars s) = true)
    by (destruct (chars s); [discriminate | exact D]).
  pose proof (decimal_length (chars s) D' N) as B. rewrite chars_length in B.
  assert (P : 0 <= digits_value (chars s)).
  { destruct (decimals_uint _ D') as (u & <-). rewrite digits_of_uint. lia. }
  unfold str_of_int. rewrite (Z.abs_eq _ P).
  apply Z.leb_le in L.
  destruct (Z.leb_spec (Z.of_nat (String.length (decimal (digits_value (chars s)))))
                       max_str_digits); [reflexivity | lia].
Qed.

End TextFacts.

(** ** Facts about the loader *)

Module LoaderFacts.
Import Py ModelLoader Spec PyFacts.
Local Open Scope py_scope.

Lemma _normalize_package_ok (obj : pyval) (pkg : pydict) :
  _normalize_package obj = Ok pkg ->
  is_none (dict_get pkg "pipeline") = false
  /\ dict_get pkg "label_mapping"
     = match obj with PyDict d => dict_get d "label_mapping" | _ => PyNone end
  /\ dict_get pkg "required_raw_features"
     = match obj with PyDict d => dict_get d "required_raw_features" | _ => PyNone end.
Proof.
  unfold _normalize_package.
  match goal with |- context [is_none ?x] => destruct (is_none x) eqn:N end;
    [discriminate |].
  intros [= <-]. split; [exact N |].
  destruct obj; split; reflexivity.
Qed.

Section WithExternals.
Context `{E : Externals}.

Lemma attach_codec_ok (pkg pkg' : pydict) :
  attach_codec pkg = Ok pkg' ->
  (forall k, k <> "_label_id_to_name" -> k <> "_label_name_to_id" ->
             dict_get pkg' k = dict_get pkg k)
  /\ (exists v, dict_lookup pkg' (PyStr "_label_id_to_name") = Some v)
  /\ (exists v, dict_lookup pkg' (PyStr "_label_name_to_id") = Some v)
  /\ (dict_get pkg' "_label_id_to_name" = PyNone
      \/ exists d, dict_get pkg' "_label_id_to_name" = PyDict d).
Proof.
  unfold attach_codec. intros H.
  assert (S : exists a b,
             pkg' = dict_set (dict_set pkg (PyStr "_label_id_to_name") a)
                             (PyStr "_label_name_to_id") b
             /\ (a = PyNone \/ exists d, a = PyDict d)).
  { destruct (negb (is_none (dict_get pkg "label_mapping"))).
    - destruct (py_items (dict_get pkg "label_mapping")) as [items |]; [| discriminate].
      simpl in H. destruct (build_codec items ([], [])) as [c |]; [| discriminate].
      simpl in H. injection H as <-. eauto 6.
    - injection H as <-. eauto 6. }
  destruct S as (a & b & -> & Ha). repeat split.
  - intros k N1 N2. rewrite !dict_get_set.
    destruct (String.eqb_spec "_label_name_to_id" k); [congruence |].
    destruct (String.eqb_spec "_label_id_to_name" k); [congruence | reflexivity].
  - rewrite !dict_lookup_set_str. simpl. eauto.
  - rewrite !dict_lookup_set_str. simpl. eauto.
  - rewrite !dict_get_set. simpl. exact Ha.
Qed.

Lemma prepare_ok (w : world) (st st1 : process) (pkg : pydict) :
  prepare w st = (Ok pkg, st1) ->
  well_formed pkg
  /\ st1 = {| _model_cache := _model_cache st; joblib_loads := S (joblib_loads st) |}
  /\ exists obj, w = Some (Ok obj).
Proof.
  unfold prepare, _load_model_file.
  destruct w as [[obj | e] |]; simpl; try discriminate.
  destruct (_normalize_package obj) as [p |] eqn:N; simpl; [| discriminate].
  intros [= A <-].
  apply _normalize_package_ok in N. destruct N as (N & _).
  destruct (attach_codec_ok _ _ A) as (K & I1 & I2 & I3).
  repeat split; eauto.
  rewrite K; [exact N | discriminate | discriminate].
Qed.

Lemma prepare_loads (w : world) (st : process) :
  snd (prepare w st)
  = match w with
    | None => st
    | Some _ => {| _model_cache := _model_cache st;
                   joblib_loads := S (joblib_loads st) |}
    end.
Proof. unfold prepare, _load_model_file. destruct w; reflexivity. Qed.

(** What a freshly prepared package holds comes from the artifact. *)
Lemma prepare_fields (w : world) (st st1 : process) (pkg : pydict) :
  prepare w st = (Ok pkg, st1) ->
  exists obj, w = Some (Ok obj)
    /\ dict_get pkg "required_raw_features"
       = match obj with
         | PyDict d => dict_get d "required_raw_features"
         | _ => PyNone
         end
    /\ dict_get pkg "pipeline"
       = match obj with
         | PyDict d => py_or (py_or (dict_get d "pipeline") (dict_get d "model"))
                             (dict_get d "pipeline_obj")
         | _ => obj
         end.
Proof.
  unfold prepare, _load_model_file.
  destruct w as [[obj | e] |]; simpl; try discriminate.
  destruct (_normalize_package obj) as [p |] eqn:N; simpl; [| discriminate].
  intros [= A _]. exists obj. split; [reflexivity |].
  destruct (attach_codec_ok _ _ A) as (K & _).
  rewrite !K by discriminate.
  unfold _normalize_package in N.
  match type of N with context [is_none ?x] => destruct (is_none x) end;
    [discriminate |].
  injection N as <-. destruct obj; split; reflexivity.
Qed.

(** A call on a loaded cache returns at once and changes nothing. *)
Lemma _ensure_loaded_loaded (w : world) (st : process) :
  loaded (_model_cache st) = true -> _ensure_loaded w st = (Ok tt, st).
Proof. unfold _ensure_loaded. intros ->. reflexivity. Qed.

Lemma _ensure_loaded_unloaded (w : world) (st : process) :
  loaded (_model_cache st) = false ->
  _ensure_loaded w st
  = match prepare w st with
    | (Ok package, st1) =>
        (Ok tt, {| _model_cache := {| loaded := true; package := PyDict package |};
                   joblib_loads := joblib_loads st1 |})
    | (Raise e, st1) => (Raise e, st1)
    end.
Proof. unfold _ensure_loaded. intros ->. reflexivity. Qed.

(** After a call that returns, the flag is set. *)
Lemma _ensure_loaded_ok (w : world) (st st' : process) (u : unit) :
  _ensure_loaded w st = (Ok u, st') -> loaded (_model_cache st') = true.
Proof.
  destruct (loaded (_model_cache st)) eqn:L.
  - rewrite (_ensure_loaded_loaded _ _ L). intros [= _ <-]. exact L.
  - rewrite (_ensure_loaded_unloaded _ _ L).
    destruct (prepare w st) as [[pkg | e] st1]; [| discriminate].
    intros [= _ <-]. reflexivity.
Qed.

(** A call that raises leaves the cache as it was. *)
Lemma _ensure_loaded_raise (w : world) (st st' : process) (e : exn) :
  _ensure_loaded w st = (Raise e, st') ->
  _model_cache st' = _model_cache st /\ loaded (_model_cache st) = false.
Proof.
  destruct (loaded (_model_cache st)) eqn:L.
  - rewrite (_ensure_loaded_loaded _ _ L). discriminate.
  - rewrite (_ensure_loaded_unloaded _ _ L).
    destruct (prepare w st) as [[pkg | e'] st1] eqn:P; [discriminate |].
    intros [= _ <-].
    pose proof (prepare_loads w st) as S. rewrite P in S. simpl in S.
    subst st1. destruct w; auto.
Qed.

Lemma _ensure_loaded_cache_ok (w : world) (st : process) :
  cache_ok st -> cache_ok (snd (_ensure_loaded w st)).
Proof.
  intros C. destruct (loaded (_model_cache st)) eqn:L.
  - rewrite (_ensure_loaded_loaded _ _ L). exact C.
  - rewrite (_ensure_loaded_unloaded _ _ L).
    destruct (prepare w st) as [[pkg | e] st1] eqn:P; simpl.
    + intros _. exists pkg. split; [reflexivity |].
      apply prepare_ok in P. tauto.
    + pose proof (prepare_loads w st) as S. rewrite P in S. simpl in S.
      subst st1. unfold cache_ok. destruct w; simpl; rewrite L; discriminate.
Qed.

Lemma get_pipeline_state (w : world) (st : process) :
  snd (get_pipeline w st) = snd (_ensure_loaded w st).
Proof.
  unfold get_pipeline. destruct (_ensure_loaded w st) as [[u | e] st']; reflexivity.
Qed.

Lemma get_required_features_state (w : world) (st : process) :
  snd (get_required_features w st) = snd (_ensure_loaded w st).
Proof.
  unfold get_required_features.
  destruct (_ensure_loaded w st) as [[u | e] st']; reflexivity.
Qed.

Lemma decode_label_state (w : world) (st : process) (p : pyval) :
  snd (decode_label w st p) = snd (_ensure_loaded w st).
Proof.
  unfold decode_label. destruct (_ensure_loaded w st) as [[u | e] st']; reflexivity.
Qed.

Lemma initial_cache_ok : cache_ok initial.
Proof. unfold cache_ok. simpl. discriminate. Qed.

Lemma reachable_cache_ok (st : process) : reachable st -> cache_ok st.
Proof.
  induction 1 as [| w st R IH | w st R IH | w st p R IH].
  - exact initial_cache_ok.
  - rewrite get_pipeline_state. apply _ensure_loaded_cache_ok, IH.
  - rewrite get_required_features_state. apply _ensure_loaded_cache_ok, IH.
  - rewrite decode_label_state. apply _ensure_loaded_cache_ok, IH.
Qed.

End WithExternals.

End LoaderFacts.

(** ** Facts about decoding and the schema *)

Module DecodeFacts.
Import Py ModelLoader Spec PyFacts LoaderFacts.
Local Open Scope py_scope.

Section WithExternals.
Context `{E : Externals}.

(** The look-up of an id, as the [try] block of [decode_label] does it. *)
Lemma lookup_id (pkg : pydict) (pid : Z) :
  (dict_get pkg "_label_id_to_name" = PyNone
   \/ exists d, dict_get pkg "_label_id_to_name" = PyDict d) ->
  (id_to_name <- py_get (PyDict pkg) "_label_id_to_name" ;;
   found <- (if truthy id_to_name
             then py_contains id_to_name (PyInt pid)
             else Ok false) ;;
   if found : bool
   then name <- py_getitem id_to_name (PyInt pid) ;; Ok (Some name)
   else text <- py_str (PyInt pid) ;; Ok (Some (PyStr text)))
  = match codec_name pkg pid with
    | Some name => Ok (Some name)
    | None => text <- str_of_int pid ;; Ok (Some (PyStr text))
    end.
Proof.
  unfold codec_name. simpl py_get. cbn [bind].
  intros [C | [d C]]; rewrite C; [reflexivity |].
  destruct (truthy (PyDict d)) eqn:T.
  - cbn [py_contains py_getitem dict_mem hashable bind].
    destruct (dict_lookup d (PyInt pid)); reflexivity.
  - rewrite (truthy_dict_lookup _ (PyInt pid) T). reflexivity.
Qed.

(** The [try] block on an [int]: the name, or the text of the id, or
    nothing when the id has no text. *)
Lemma decode_int (pkg : pydict) (pid : Z) (p : pyval) :
  (dict_get pkg "_label_id_to_name" = PyNone
   \/ exists d, dict_get pkg "_label_id_to_name" = PyDict d) ->
  py_int p = Ok pid ->
  try_except
    (pid <- py_int p ;;
     id_to_name <- py_get (PyDict pkg) "_label_id_to_name" ;;
     found <- (if truthy id_to_name
               then py_contains id_to_name (PyInt pid)
               else Ok false) ;;
     if found : bool
     then name <- py_getitem id_to_name (PyInt pid) ;; Ok (Some name)
     else text <- py_str (PyInt pid) ;; Ok (Some (PyStr text)))
    (fun _ => Ok None)
  = Ok match codec_name pkg pid with
       | Some name => Some name
       | None =>
           match str_of_int pid with
           | Ok text => Some (PyStr text)
           | Raise _ => None
           end
       end.
Proof.
  intros C I. rewrite I. cbn [bind]. rewrite (lookup_id pkg pid C).
  destruct (codec_name pkg pid); [reflexivity |].
  destruct (str_of_int pid); reflexivity.
Qed.

(** [decode_label] on a loaded package follows the decode contract. *)
Lemma decode_with_spec (pkg : pydict) (p : pyval) :
  (dict_get pkg "_label_id_to_name" = PyNone
   \/ exists d, dict_get pkg "_label_id_to_name" = PyDict d) ->
  decode_with (PyDict pkg) p = decode_spec pkg p.
Proof.
  intros C. unfold decode_with, decode_spec.
  destruct p as [| b | z | f | s | l | d | c a | nz]; try reflexivity.
  - cbn [isinstance_int orb prediction_id].
    rewrite (decode_int pkg (if b then 1 else 0) (PyBool b) C eq_refl). cbn [bind].
    destruct (codec_name pkg (if b then 1 else 0)); [reflexivity |].
    destruct b; reflexivity.
  - cbn [isinstance_int orb prediction_id].
    rewrite (decode_int pkg z (PyInt z) C eq_refl). cbn [bind].
    destruct (codec_name pkg z); [reflexivity |].
    cbn [isinstance_str py_str]. destruct (str_of_int z); reflexivity.
  - cbn [isinstance_int orb prediction_id isinstance_str].
    destruct (decimal_string s) eqn:D.
    + rewrite (str_isdigit_decimal _ D).
      destruct (Z.of_nat (String.length s) <=? max_str_digits) eqn:L.
      * assert (I : py_int (PyStr s) = Ok (digits_value (chars s)))
          by (cbn [py_int]; rewrite (int_of_str_decimal _ D), L; reflexivity).
        rewrite (decode_int pkg _ _ C I). cbn [bind andb].
        destruct (codec_name pkg (digits_value (chars s))); [reflexivity |].
        rewrite (TextFacts.str_of_int_digits s D L). reflexivity.
      * cbn [py_int]. rewrite (int_of_str_decimal _ D), L. reflexivity.
    + destruct (str_isdigit s) eqn:I; [| reflexivity].
      cbn [py_int]. rewrite (int_of_str_isdigit _ I D). reflexivity.
Qed.

(** [get_required_features] on a loaded package follows the precedence and
    always returns. *)
Lemma required_features_of_spec (pkg : pydict) :
  required_features_of (PyDict pkg) = Ok (schema_spec pkg).
Proof.
  unfold required_features_of, schema_spec. cbn [py_get bind].
  destruct (dict_get pkg "required_raw_features"); try reflexivity.
  cbn [is_none bind].
  destruct (dict_get pkg "pipeline") as [| b | z | f | s | l | d | c attrs | nz];
    try reflexivity.
  unfold hasattr at 1, getattr, selector_columns.
  destruct (assoc_str attrs "named_steps") as [ns |]; [| reflexivity].
  cbn [bind].
  destruct ns as [| b | z | f | s | l | d | c' a' | nz]; try reflexivity.
  - (* a string *)
    cbn [py_contains bind]. destruct (is_infix _ _); reflexivity.
  - (* a list *)
    cbn [py_contains bind]. destruct (existsb _ l); reflexivity.
  - (* a dictionary *)
    cbn [py_contains dict_mem hashable bind py_getitem].
    destruct (dict_lookup d (PyStr "selector")) as [sel |]; [| reflexivity].
    cbn [bind try_except].
    destruct sel as [| b | z | f | s | l | d' | c' sattrs | nz]; try reflexivity.
    unfold hasattr.
    destruct (assoc_str sattrs "required_columns") as [cols |]; [| reflexivity].
    cbn [bind]. destruct (py_list cols); reflexivity.
Qed.

End WithExternals.

End DecodeFacts.

(** ** The decode contract (C5), the schema (C6), the loaded cache (C10) *)

Module LoaderClaims.
Import Py ModelLoader Spec PyFacts LoaderFacts DecodeFacts.
Local Open Scope py_scope.



Section WithExternals.
Context `{E : Externals}.

(** When the decode contract has no answer. *)
Lemma decode_spec_raises (pkg : pydict) (p : pyval) :
  is_ok (decode_spec pkg p) = false <-> undecodable pkg p.
Proof.
  unfold decode_spec, undecodable.
  destruct p as [| b | z | f | s | l | d | c a | nz]; cbn [prediction_id].
  - split; [discriminate |].
    intros [(z & Q & _) | (_ & _ & Q)]; discriminate.
  - split.
    + destruct (codec_name pkg (if b then 1 else 0)); [discriminate |].
      destruct b; discriminate.
    + intros [(z & Q & _) | (Q & _)]; discriminate.
  - split.
    + destruct (codec_name pkg z) eqn:C; [discriminate |].
      destruct (str_of_int z) eqn:S; [discriminate |].
      intros _. left. exists z. rewrite S. auto.
    + intros [(z' & [= <-] & C & S) | (Q & _)]; [| discriminate].
      rewrite C. destruct (str_of_int z); [discriminate | reflexivity].
  - cbn [py_str bind]. split.
    + intros Q. right. repeat split. destruct (str_of_value (PyFloat f)); [discriminate | reflexivity].
    + intros [(z & Q & _) | (_ & _ & Q)]; [discriminate |].
      cbn [py_str] in Q. destruct (str_of_value (PyFloat f)); [discriminate | reflexivity].
  - split.
    + destruct (decimal_string s && (Z.of_nat (String.length s) <=? max_str_digits)) eqn:D;
        [| discriminate].
      apply andb_true_iff in D. destruct D as [D L].
      destruct (codec_name pkg (digits_value (chars s))); [discriminate |].
      rewrite (TextFacts.str_of_int_digits s D L). discriminate.
    + intros [(z & Q & _) | (_ & Q & _)]; discriminate.
  - cbn [py_str bind]. split.
    + intros Q. right. repeat split. destruct (str_of_value (PyList l)); [discriminate | reflexivity].
    + intros [(z & Q & _) | (_ & _ & Q)]; [discriminate |].
      cbn [py_str] in Q. destruct (str_of_value (PyList l)); [discriminate | reflexivity].
  - cbn [py_str bind]. split.
    + intros Q. right. repeat split. destruct (str_of_value (PyDict d)); [discriminate | reflexivity].
    + intros [(z & Q & _) | (_ & _ & Q)]; [discriminate |].
      cbn [py_str] in Q. destruct (str_of_value (PyDict d)); [discriminate | reflexivity].
  - cbn [py_str bind]. split.
    + intros Q. right. repeat split. destruct (str_of_value (PyObj c a)); [discriminate | reflexivity].
    + intros [(z & Q & _) | (_ & _ & Q)]; [discriminate |].
      cbn [py_str] in Q. destruct (str_of_value (PyObj c a)); [discriminate | reflexivity].
  - split; [discriminate |].
    intros [(z & Q & _) | (_ & _ & Q)]; discriminate.
Qed.


End WithExternals.


Section WithExternals.
Context `{E : Externals}.

(** C6: [get_required_features] can only fail with the load; when it
    returns, its result is (a) the declared feature list of the cached
    package whenever that is not [None], an empty declared list included,
    (b) otherwise the columns of the pipeline's [selector] step, (c)
    otherwise the empty list; and a package cached by this call declares
    what the artifact on disk declares. *)
Theorem C6_required_features_precedence (w : world) (st : process) :
  reachable st ->
  match get_required_features w st with
  | (Ok features, st') =>
      exists pkg,
        package (_model_cache st') = PyDict pkg
        /\ features = schema_spec pkg
        /\ (forall declared,
              dict_get pkg "required_raw_features" = declared ->
              declared <> PyNone -> features = declared)
        /\ (dict_get pkg "required_raw_features" = PyList [] -> features = PyList [])
        /\ (forall l,
              dict_get pkg "required_raw_features" = PyNone ->
              selector_columns (dict_get pkg "pipeline") = Some l ->
              features = PyList l)
        /\ (dict_get pkg "required_raw_features" = PyNone ->
            selector_columns (dict_get pkg "pipeline") = None ->
            features = PyList [])
        /\ (loaded (_model_cache st) = false ->
            exists obj, w = Some (Ok obj)
              /\ dict_get pkg "required_raw_features"
                 = match obj with
                   | PyDict d => dict_get d "required_raw_features"
                   | _ => PyNone
                   end)
  | (Raise e, st') => _ensure_loaded w st = (Raise e, st')
  end.
Proof.
  intros R. unfold get_required_features.
  destruct (_ensure_loaded w st) as [[u | e] st'] eqn:L; [| reflexivity].
  pose proof (_ensure_loaded_cache_ok w st (reachable_cache_ok _ R)) as C.
  rewrite L in C. simpl in C.
  destruct (C (_ensure_loaded_ok _ _ _ _ L)) as (pkg & P & _).
  rewrite P, required_features_of_spec.
  exists pkg. split; [reflexivity |]. split; [reflexivity |].
  unfold schema_spec. repeat split.
  - intros declared D N. rewrite D. destruct declared; congruence.
  - intros ->. reflexivity.
  - intros l -> ->. reflexivity.
  - intros -> ->. reflexivity.
  - intros U. rewrite (_ensure_loaded_unloaded _ _ U) in L.
    destruct (prepare w st) as [[pkg' | e] st1] eqn:Q; [| discriminate].
    inversion L; subst; clear L. simpl in P. injection P as <-.
    destruct (prepare_fields _ _ _ _ Q) as (obj & W & F & _). eauto.
Qed.

(** The selector that [ColumnSelector.__init__] builds carries the list of
    the columns it was given. *)
Lemma selector_columns_of_ColumnSelector (cols sel : pyval) (c : string) :
  ColumnSelector.__init__ cols = Ok sel ->
  exists l, py_list cols = Ok l
    /\ selector_columns
         (PyObj c [("named_steps", PyDict [(PyStr "selector", sel)])]) = Some l.
Proof.
  unfold ColumnSelector.__init__.
  destruct (py_list cols) as [l |]; [| discriminate].
  intros [= <-]. exists l. split; reflexivity.
Qed.

(** C10, amended: in every state the process can reach with the flag set,
    the cached package is a dictionary whose [pipeline] entry is not [None]
    and which has both label-map entries; [get_pipeline] and
    [get_required_features] return, and [decode_label] returns or raises as
    the decode contract says (it raises on an [int] beyond the digit limit
    that the codec does not name, and on a value, neither [int] nor [str],
    whose [str] raises); and every one of these calls leaves the state as
    it is: same flag, same package, same number of file loads. *)
Theorem C10_loaded_cache_is_stable (st : process) :
  reachable st ->
  loaded (_model_cache st) = true ->
  exists pkg,
    package (_model_cache st) = PyDict pkg
    /\ is_none (dict_get pkg "pipeline") = false
    /\ (exists v, dict_lookup pkg (PyStr "_label_id_to_name") = Some v)
    /\ (exists v, dict_lookup pkg (PyStr "_label_name_to_id") = Some v)
    /\ forall (w : world) (p : pyval),
         get_pipeline w st = (Ok (PyDict pkg), st)
         /\ get_required_features w st = (Ok (schema_spec pkg), st)
         /\ decode_label w st p = (decode_spec pkg p, st)
         /\ (is_ok (decode_spec pkg p) = false <-> undecodable pkg p).
Proof.
  intros R L.
  destruct (reachable_cache_ok _ R L) as (pkg & P & N & I1 & I2 & K).
  exists pkg. repeat split; try assumption.
  - unfold get_pipeline. rewrite (_ensure_loaded_loaded _ _ L), P. reflexivity.
  - unfold get_required_features.
    rewrite (_ensure_loaded_loaded _ _ L), P, required_features_of_spec. reflexivity.
  - unfold decode_label.
    rewrite (_ensure_loaded_loaded _ _ L), P, (decode_with_spec _ _ K). reflexivity.
  - apply decode_spec_raises.
  - apply decode_spec_raises.
Qed.

End WithExternals.

Lemma C6_required_features_precedence_witness :
  reachable (E := stub) initial
  /\ get_required_features (E := stub)
       (on_disk (artifact some_pipeline (PyList []) PyNone)) initial
     = (Ok (PyList []),
        snd (get_pipeline (E := stub)
               (on_disk (artifact some_pipeline (PyList []) PyNone)) initial)).
Proof.
  split; [apply reach_initial |].
  pose proof (C6_required_features_precedence (E := stub)
                (on_disk (artifact some_pipeline (PyList []) PyNone)) initial
                (reach_initial (E := stub))) as H.
  destruct (get_required_features (E := stub)
              (on_disk (artifact some_pipeline (PyList []) PyNone)) initial)
    as [[features | e] st'] eqn:G.
  - destruct H as (pkg & P & F & _).
    vm_compute in G. injection G as <- <-. reflexivity.
  - vm_compute in G. discriminate.
Defined.

(** C10, as stated, fails for [decode_label]: on a loaded cache a call with
    an [int] of 4301 digits that the codec does not name raises
    [ValueError] instead of returning; the state is left as it is. *)
Lemma C10_decode_label_raises_when_loaded :
  loaded (_model_cache (snd (get_pipeline (E := stub) two_fields initial))) = true
  /\ decode_label (E := stub) two_fields
       (snd (get_pipeline (E := stub) two_fields initial)) (PyInt beyond_limit)
     = (Raise ValueError, snd (get_pipeline (E := stub) two_fields initial)).
Proof. split; vm_compute; reflexivity. Qed.

Lemma C10_loaded_cache_is_stable_witness :
  loaded (_model_cache
            (snd (get_pipeline (E := stub)
                    (on_disk (artifact some_pipeline PyNone by_id_example)) initial)))
  = true
  /\ exists pkg,
       package (_model_cache
                  (snd (get_pipeline (E := stub)
                          (on_disk (artifact some_pipeline PyNone by_id_example))
                          initial)))
       = PyDict pkg
       /\ decode_label (E := stub) None
            (snd (get_pipeline (E := stub)
                    (on_disk (artifact some_pipeline PyNone by_id_example)) initial))
            (PyInt 0)
          = (decode_spec (E := stub) pkg (PyInt 0),
             snd (get_pipeline (E := stub)
                    (on_disk (artifact some_pipeline PyNone by_id_example)) initial))
       /\ decode_spec (E := stub) pkg (PyInt 0) = Ok (PyStr "BENIGN").
Proof.
  split; [reflexivity |].
  destruct (C10_loaded_cache_is_stable (E := stub)
              (snd (get_pipeline (E := stub)
                      (on_disk (artifact some_pipeline PyNone by_id_example)) initial))
              (reach_get_pipeline _ _ (reach_initial (E := stub)))
              eq_refl)
    as (pkg & P & _ & _ & _ & S).
  exists pkg. split; [exact P |]. split; [apply S |].
  vm_compute in P. injection P as <-. reflexivity.
Defined.

End LoaderClaims.

(** ** Facts about the request handler *)

Module AppFacts.
Import Py ModelLoader App Spec PyFacts LoaderFacts DecodeFacts.
Local Open Scope py_scope.

Lemma names_list_nil (names : list string) :
  PyList [] = names_list names -> names = [].
Proof.
  unfold names_list. intros [= H]. symmetry in H.
  apply map_eq_nil in H. exact H.
Qed.

Lemma json_ok_names (names : list string) : json_ok (names_list names) = true.
Proof.
  unfold names_list. simpl. induction names as [| n r IH]; [reflexivity | exact IH].
Qed.

Lemma dict_set_str_entries (d : pydict) (k m : string) :
  Forall str_entry d -> Forall str_entry (dict_set d (PyStr k) (PyStr m)).
Proof.
  induction 1 as [| [a x] d Hx Hd IH]; simpl.
  - constructor; [exists k, m; reflexivity | constructor].
  - destruct (key_eqb a (PyStr k)) eqn:A.
    + apply key_eqb_str_r in A. subst a.
      constructor; [exists k, m; reflexivity | exact Hd].
    + constructor; [exact Hx | exact IH].
Qed.

Lemma sortable_strings (keys : list pyval) :
  forallb isinstance_str keys = true -> sortable keys = true.
Proof.
  intros H. unfold sortable. destruct keys as [| a [| b r]]; try reflexivity.
  rewrite H. reflexivity.
Qed.

Lemma json_ok_str_entries (d : pydict) : Forall str_entry d -> json_ok (PyDict d) = true.
Proof.
  intros H. cbn [json_ok]. apply andb_true_iff. split.
  - apply sortable_strings.
    induction H as [| kv d (k & m & ->) Hd IH]; [reflexivity | exact IH].
  - induction H as [| kv d (k & m & ->) Hd IH]; [reflexivity | exact IH].
Qed.

Section WithExternals.
Context `{E : Externals}.

(** What [startup] leaves: no model and an empty schema, or the cached
    package and its schema. *)
Lemma startup_cases (w : world) :
  (PIPELINE_PACKAGE (startup w) = PyNone
   /\ REQUIRED_FEATURES (startup w) = PyList []
   /\ exists e, fst (get_pipeline w initial) = Raise e)
  \/ (exists pkg,
        PIPELINE_PACKAGE (startup w) = PyDict pkg
        /\ REQUIRED_FEATURES (startup w) = schema_spec pkg
        /\ loaded (_model_cache (loader (startup w))) = true
        /\ package (_model_cache (loader (startup w))) = PyDict pkg
        /\ reachable (loader (startup w))
        /\ well_formed pkg
        /\ get_pipeline w initial = (Ok (PyDict pkg), loader (startup w))).
Proof.
  unfold startup.
  pose proof (reach_get_pipeline w initial reach_initial) as R.
  pose proof (reachable_cache_ok _ R) as C.
  unfold get_pipeline in *.
  destruct (_ensure_loaded w initial) as [[u | e] st1] eqn:L; simpl in *.
  - pose proof (_ensure_loaded_ok _ _ _ _ L) as T.
    destruct (C T) as (pkg & P & W).
    unfold get_required_features.
    rewrite (_ensure_loaded_loaded _ _ T), P, required_features_of_spec.
    right. exists pkg. simpl. repeat split; try assumption; try reflexivity.
    + apply W.
    + apply W.
    + apply W.
    + apply W.
  - left. simpl. eauto.
Qed.

Lemma missing_fields_names (names : list string) (payload : pydict) :
  missing_fields (map PyStr names) payload
  = Ok (map PyStr (absent names payload)).
Proof.
  induction names as [| n r IH]; [reflexivity |].
  simpl. rewrite IH. simpl.
  destruct (dict_lookup payload (PyStr n)); reflexivity.
Qed.

Lemma validate_field_coerce (payload : pydict) (acc : pydict * pydict) (n : string) :
  validate_field payload acc (PyStr n)
  = match coerce (field_value payload n) with
    | Ok x => (dict_set (fst acc) (PyStr n) x, snd acc)
    | Raise _ =>
        (fst acc,
         dict_set (snd acc) (PyStr n)
                  (PyStr (type_error_message (PyStr n) (field_value payload n))))
    end.
Proof.
  destruct acc as [casted errs]. unfold validate_field, coerce, field_value.
  destruct (isinstance_int_float _); [reflexivity |].
  destruct (py_float _); reflexivity.
Qed.

Lemma fails_coerce (payload : pydict) (n : string) :
  fails payload n = negb (is_ok (coerce (field_value payload n))).
Proof. reflexivity. Qed.

(** The errors after the loop: a field of the schema that fails has its
    message, and nothing else is added. *)
Lemma errors_complete (payload : pydict) (names : list string)
      (acc : pydict * pydict) (n : string) :
  fails payload n = true ->
  In n names
  \/ dict_lookup (snd acc) (PyStr n)
     = Some (PyStr (type_error_message (PyStr n) (field_value payload n))) ->
  dict_lookup (snd (fold_left (validate_field payload) (map PyStr names) acc)) (PyStr n)
  = Some (PyStr (type_error_message (PyStr n) (field_value payload n))).
Proof.
  intros F. revert acc. induction names as [| k r IH]; intros acc H; simpl.
  - destruct H as [[] | H]. exact H.
  - apply IH. rewrite validate_field_coerce.
    destruct (String.eqb_spec k n) as [-> | N].
    + right. rewrite fails_coerce in F.
      destruct (coerce (field_value payload n)); [discriminate |].
      simpl. rewrite dict_lookup_set_str, String.eqb_refl. reflexivity.
    + destruct H as [[-> | H] | H]; [contradiction | left; exact H | right].
      destruct (coerce (field_value payload k)); simpl; [exact H |].
      rewrite dict_lookup_set_str.
      destruct (String.eqb_spec k n); [contradiction | exact H].
Qed.

Lemma errors_sound (payload : pydict) (names : list string)
      (acc : pydict * pydict) (n : string) (m : pyval) :
  dict_lookup (snd (fold_left (validate_field payload) (map PyStr names) acc)) (PyStr n)
  = Some m ->
  (In n names /\ fails payload n = true)
  \/ dict_lookup (snd acc) (PyStr n) = Some m.
Proof.
  revert acc. induction names as [| k r IH]; intros acc H; simpl in *.
  - right. exact H.
  - apply IH in H. destruct H as [[I F] | H]; [left; auto |].
    rewrite validate_field_coerce in H.
    destruct (coerce (field_value payload k)) eqn:C; simpl in H; [right; exact H |].
    rewrite dict_lookup_set_str in H.
    destruct (String.eqb_spec k n) as [-> | N]; [| right; exact H].
    left. split; [left; reflexivity |]. rewrite fails_coerce, C. reflexivity.
Qed.

(** The coerced values after the loop. *)
Lemma casted_complete (payload : pydict) (names : list string)
      (acc : pydict * pydict) (n : string) (x : pyval) :
  coerce (field_value payload n) = Ok x ->
  In n names \/ dict_lookup (fst acc) (PyStr n) = Some x ->
  dict_lookup (fst (fold_left (validate_field payload) (map PyStr names) acc)) (PyStr n)
  = Some x.
Proof.
  intros C. revert acc. induction names as [| k r IH]; intros acc H; simpl.
  - destruct H as [[] | H]. exact H.
  - apply IH. rewrite validate_field_coerce.
    destruct (String.eqb_spec k n) as [-> | N].
    + right. rewrite C. simpl.
      rewrite dict_lookup_set_str, String.eqb_refl. reflexivity.
    + destruct H as [[-> | H] | H]; [contradiction | left; exact H | right].
      destruct (coerce (field_value payload k)); simpl; [| exact H].
      rewrite dict_lookup_set_str.
      destruct (String.eqb_spec k n); [contradiction | exact H].
Qed.

Lemma casted_sound (payload : pydict) (names : list string)
      (acc : pydict * pydict) (n : string) (x : pyval) :
  dict_lookup (fst (fold_left (validate_field payload) (map PyStr names) acc)) (PyStr n)
  = Some x ->
  (In n names /\ coerce (field_value payload n) = Ok x)
  \/ dict_lookup (fst acc) (PyStr n) = Some x.
Proof.
  revert acc. induction names as [| k r IH]; intros acc H; simpl in *.
  - right. exact H.
  - apply IH in H. destruct H as [[I F] | H]; [left; auto |].
    rewrite validate_field_coerce in H.
    destruct (coerce (field_value payload k)) eqn:C; simpl in H; [| right; exact H].
    rewrite dict_lookup_set_str in H.
    destruct (String.eqb_spec k n) as [-> | N]; [| right; exact H].
    left. split; [left; reflexivity |]. congruence.
Qed.

Lemma errors_str_entries (payload : pydict) (names : list string)
      (acc : pydict * pydict) :
  Forall str_entry (snd acc) ->
  Forall str_entry (snd (fold_left (validate_field payload) (map PyStr names) acc)).
Proof.
  revert acc. induction names as [| k r IH]; intros acc H; simpl; [exact H |].
  apply IH. rewrite validate_field_coerce.
  destruct (coerce (field_value payload k)); simpl; [exact H |].
  apply dict_set_str_entries, H.
Qed.

End WithExternals.

End AppFacts.

(** ** The validator (C1, C3, C4) and a failed start (C9) *)

Module AppClaims.
Import Py ModelLoader App Spec PyFacts LoaderFacts DecodeFacts AppFacts.
Local Open Scope py_scope.

(** C1, as stated, fails on booleans: [true] is an instance of [int], so it
    passes through unchanged, no type error is recorded, and the request
    is answered with a prediction. *)
Lemma C1_boolean_is_accepted :
  validate_types (E := stub) [PyStr "a"; PyStr "b"]
                 [(PyStr "a", PyBool true); (PyStr "b", PyInt 3)]
  = ([(PyStr "a", PyBool true); (PyStr "b", PyInt 3)], [])
  /\ fst (predict (E := stub) two_fields (startup (E := stub) two_fields)
                  (JsonBody (PyDict [(PyStr "a", PyBool true); (PyStr "b", PyInt 3)])))
     = Response 200 (PyDict [(PyStr "prediction", PyStr "DDoS");
                             (PyStr "confidence", PyFloat f_0_9)]).
Proof. split; reflexivity. Qed.

Section WithExternals.
Context `{E : Externals}.

Lemma startup_schema_loaded (w : world) (names : list string) :
  REQUIRED_FEATURES (startup w) = names_list names ->
  names <> [] ->
  is_none (PIPELINE_PACKAGE (startup w)) = false.
Proof.
  intros S N. destruct (startup_cases w) as [(_ & F & _) | (pkg & P & _)].
  - rewrite F in S. apply names_list_nil in S. contradiction.
  - rewrite P. reflexivity.
Qed.

(** [predict] on an object body, once the model is loaded and the schema
    is a list of names. *)
Lemma predict_object (w' : world) (a : app) (names : list string) (payload : pydict) :
  is_none (PIPELINE_PACKAGE a) = false ->
  REQUIRED_FEATURES a = names_list names ->
  predict w' a (JsonBody (PyDict payload))
  = match map PyStr (absent names payload) with
    | f :: m =>
        (respond [ (PyStr "error", PyStr "Missing required fields");
                   (PyStr "missing_fields", PyList (f :: m)) ] 400, a)
    | [] =>
        match validate_types (map PyStr names) payload with
        | (casted, e :: es) =>
            (respond [ (PyStr "error", PyStr "Wrong types for fields");
                       (PyStr "details", PyDict (e :: es)) ] 400, a)
        | (casted, []) =>
            match DataFrame [casted] (names_list names) with
            | Raise _ =>
                (respond [ (PyStr "error",
                            PyStr "Internal server error while preparing input") ]
                         500, a)
            | Ok df =>
                match run_pipeline w' a df with
                | (Ok body, st) => (Response 200 body, with_loader a st)
                | (Raise e, st) =>
                    (respond [ (PyStr "error",
                                PyStr "Internal server error during prediction");
                               (PyStr "message", PyStr (exn_str e)) ] 500,
                     with_loader a st)
                end
            end
        end
    end.
Proof.
  intros L S. unfold predict. rewrite L, S.
  unfold names_list at 1. cbn [py_list bind].
  rewrite missing_fields_names. cbn [bind].
  destruct (map PyStr (absent names payload)); reflexivity.
Qed.

(** C3: whenever a JSON object lacks some field of the schema, the answer
    is 400 with [missing_fields] the fields of the schema, in schema order,
    that are not keys of the object, whatever else the object holds; so it
    is never the wrong-types answer. *)
Theorem C3_missing_fields (w w' : world) (names : list string) (payload : pydict) :
  REQUIRED_FEATURES (startup w) = names_list names ->
  absent names payload <> [] ->
  predict w' (startup w) (JsonBody (PyDict payload))
  = (Response 400
       (PyDict [ (PyStr "error", PyStr "Missing required fields");
                 (PyStr "missing_fields", names_list (absent names payload)) ]),
     startup w)
  /\ forall n, In n (absent names payload)
               <-> In n names /\ dict_lookup payload (PyStr n) = None.
Proof.
  intros S M. split.
  - assert (N : names <> []) by (intros ->; apply M; reflexivity).
    rewrite (predict_object w' _ names payload (startup_schema_loaded _ _ S N) S).
    destruct (absent names payload) as [| n r] eqn:A; [contradiction |].
    cbn [map]. unfold respond, jsonify.
    change (PyStr n :: map PyStr r) with (map PyStr (n :: r)).
    assert (J : json_ok (PyDict [ (PyStr "error", PyStr "Missing required fields");
                                  (PyStr "missing_fields", PyList (map PyStr (n :: r))) ])
                = true).
    { pose proof (json_ok_names (n :: r)) as J. unfold names_list in J.
      cbn [json_ok forallb fst snd json_key_ok andb] in *. rewrite J. reflexivity. }
    rewrite J. reflexivity.
  - intros n. unfold absent. rewrite filter_In.
    destruct (dict_lookup payload (PyStr n)); intuition congruence.
Qed.

(** Once every field is present, a failing field makes the answer the
    wrong-types one, with the errors of the loop as details. *)
Lemma predict_type_errors (w w' : world) (names : list string)
      (payload casted errs : pydict) (n : string) :
  REQUIRED_FEATURES (startup w) = names_list names ->
  absent names payload = [] ->
  validate_types (map PyStr names) payload = (casted, errs) ->
  In n names -> fails payload n = true ->
  predict w' (startup w) (JsonBody (PyDict payload))
  = (Response 400
       (PyDict [ (PyStr "error", PyStr "Wrong types for fields");
                 (PyStr "details", PyDict errs) ]),
     startup w).
Proof.
  intros S A V I F.
  assert (N : names <> []) by (intros ->; destruct I).
  rewrite (predict_object w' _ names payload (startup_schema_loaded _ _ S N) S).
  rewrite A, V. cbn [map].
  pose proof (errors_complete payload names ([], []) n F (or_introl I)) as C.
  pose proof (errors_str_entries payload names ([], []) (Forall_nil _)) as J.
  unfold validate_types in V. rewrite V in C, J. simpl in C, J.
  destruct errs as [| e es]; [discriminate |].
  apply json_ok_str_entries in J.
  unfold respond, jsonify.
  assert (J' : json_ok (PyDict [ (PyStr "error", PyStr "Wrong types for fields");
                                 (PyStr "details", PyDict (e :: es)) ]) = true).
  { cbn [json_ok forallb fst snd json_key_ok andb] in *. rewrite J. reflexivity. }
  rewrite J'. reflexivity.
Qed.

(** C4: when every field of the schema is present and some fail coercion,
    be it two or more or only one, the answer is 400 and its [details] has
    an entry, with its message, for each failing field, and for no other. *)
Theorem C4_all_failing_fields_reported (w w' : world) (names : list string)
        (payload : pydict) :
  REQUIRED_FEATURES (startup w) = names_list names ->
  absent names payload = [] ->
  (exists n, In n names /\ fails payload n = true) ->
  exists details,
    predict w' (startup w) (JsonBody (PyDict payload))
    = (Response 400
         (PyDict [ (PyStr "error", PyStr "Wrong types for fields");
                   (PyStr "details", PyDict details) ]),
       startup w)
    /\ (forall n, In n names -> fails payload n = true ->
          dict_lookup details (PyStr n)
          = Some (PyStr (type_error_message (PyStr n) (field_value payload n))))
    /\ (forall n m, dict_lookup details (PyStr n) = Some m ->
          In n names /\ fails payload n = true).
Proof.
  intros S A (n0 & I0 & F0).
  destruct (validate_types (map PyStr names) payload) as [casted errs] eqn:V.
  exists errs. split; [| split].
  - eapply predict_type_errors; eassumption.
  - intros n I F.
    pose proof (errors_complete payload names ([], []) n F (or_introl I)) as C.
    unfold validate_types in V. rewrite V in C. exact C.
  - intros n m L.
    pose proof (errors_sound payload names ([], []) n m) as C.
    unfold validate_types in V. rewrite V in C.
    destruct (C L) as [C' | C']; [exact C' | discriminate].
Qed.

(** C1, amended: for a request supplying all schema fields, a value of a
    numeric type, booleans included, passes through unchanged; a string
    goes through [float], so ["3.5"] becomes 3.5, and is a type error when
    [float] rejects it; [null], objects and arrays are type errors; and
    every type error is in the details of the 400 answer under its field.
    (A numpy integer, which no JSON body holds, would go through [float]
    as a string does.) *)
Theorem C1_coercion (w w' : world) (names : list string)
        (payload casted errs : pydict) (n : string) (v : pyval) :
  REQUIRED_FEATURES (startup w) = names_list names ->
  absent names payload = [] ->
  validate_types (map PyStr names) payload = (casted, errs) ->
  In n names ->
  dict_lookup payload (PyStr n) = Some v ->
  float_of_str "3.5" = Some f_3_5
  /\ match v with
     | PyInt _ | PyFloat _ | PyBool _ =>
         dict_lookup casted (PyStr n) = Some v
         /\ dict_lookup errs (PyStr n) = None
     | PyStr s =>
         match float_of_str s with
         | Some f =>
             dict_lookup casted (PyStr n) = Some (PyFloat f)
             /\ dict_lookup errs (PyStr n) = None
         | None => reported w w' payload casted errs n v
         end
     | PyNone | PyList _ | PyDict _ | PyObj _ _ =>
         reported w w' payload casted errs n v
     | PyNpInt z =>
         match float_of_int z with
         | Ok f =>
             dict_lookup casted (PyStr n) = Some (PyFloat f)
             /\ dict_lookup errs (PyStr n) = None
         | Raise _ => reported w w' payload casted errs n v
         end
     end.
Proof.
  intros S A V I L. split; [reflexivity |].
  assert (FV : field_value payload n = v) by (unfold field_value; rewrite L; reflexivity).
  assert (OK : forall x, coerce v = Ok x ->
                 dict_lookup casted (PyStr n) = Some x
                 /\ dict_lookup errs (PyStr n) = None).
  { intros x C. rewrite <- FV in C. split.
    - pose proof (casted_complete payload names ([], []) n x C (or_introl I)) as K.
      unfold validate_types in V. rewrite V in K. exact K.
    - destruct (dict_lookup errs (PyStr n)) as [m |] eqn:D; [| reflexivity].
      pose proof (errors_sound payload names ([], []) n m) as K.
      unfold validate_types in V. rewrite V in K.
      destruct (K D) as [[_ F] | F]; [| discriminate].
      unfold fails in F. rewrite C in F. discriminate. }
  assert (KO : forall e, coerce v = Raise e -> reported w w' payload casted errs n v).
  { intros e C. rewrite <- FV in C.
    assert (F : fails payload n = true) by (unfold fails; rewrite C; reflexivity).
    unfold reported. repeat split.
    - destruct (dict_lookup casted (PyStr n)) as [x |] eqn:D; [| reflexivity].
      pose proof (casted_sound payload names ([], []) n x) as K.
      unfold validate_types in V. rewrite V in K.
      destruct (K D) as [[_ C'] | C']; [congruence | discriminate].
    - pose proof (errors_complete payload names ([], []) n F (or_introl I)) as K.
      unfold validate_types in V. rewrite V, FV in K. exact K.
    - eapply predict_type_errors; eassumption. }
  destruct v as [| b | z | f | s | l | d | c a | nz];
    try (apply (OK _ eq_refl)); try (apply (KO TypeError eq_refl)).
  - destruct (float_of_str s) as [f |] eqn:P.
    + apply OK. unfold coerce. simpl. rewrite P. reflexivity.
    + apply (KO ValueError). unfold coerce. simpl. rewrite P. reflexivity.
  - destruct (float_of_int nz) as [f | e] eqn:P.
    + apply OK. unfold coerce. simpl. rewrite P. reflexivity.
    + apply (KO e). unfold coerce. simpl. rewrite P. reflexivity.
Qed.

End WithExternals.

Section WithExternals.
Context `{E : Externals}.

Lemma build_codec_raises (items : pydict) (acc : pydict * pydict) (k v : pyval) :
  In (k, v) items ->
  is_ok (py_int k) = false ->
  is_ok (py_int v) = false ->
  exists e, build_codec items acc = Raise e.
Proof.
  intros I Hk Hv. revert acc.
  induction items as [| kv rest IH]; intros acc; [destruct I |].
  simpl. destruct I as [-> | I].
  - destruct acc as [a b]. unfold codec_entry, codec_entry_except.
    destruct (py_int k); [discriminate |].
    destruct (py_int v) as [| e']; [discriminate |].
    exists e'. reflexivity.
  - destruct (codec_entry acc kv) as [acc' | e]; simpl; [apply (IH I) | eauto].
Qed.

(** C9: when the artifact file holds a valid pipeline and a label mapping
    with an entry whose key and value both refuse [int], building the
    codec raises, so the load raises after one deserialisation and caches
    nothing; the server starts without a model, [/health] says so, and
    every [POST /predict] is answered 500 "Model not loaded". *)
Theorem C9_unconvertible_label_entry (obj : pyval) (pkg label_map : pydict)
        (k v : pyval) :
  _normalize_package obj = Ok pkg ->
  dict_get pkg "label_mapping" = PyDict label_map ->
  In (k, v) label_map ->
  is_ok (py_int k) = false ->
  is_ok (py_int v) = false ->
  (exists e, build_codec label_map ([], []) = Raise e)
  /\ (exists e, attach_codec pkg = Raise e)
  /\ (exists e, get_pipeline (on_disk obj) initial
                = (Raise e, {| _model_cache := {| loaded := false; package := PyNone |};
                               joblib_loads := 1 |}))
  /\ PIPELINE_PACKAGE (startup (on_disk obj)) = PyNone
  /\ health (startup (on_disk obj))
     = Response 200 (PyDict [ (PyStr "status", PyStr "ok");
                              (PyStr "model_loaded", PyBool false) ])
  /\ forall (w' : world) (req : request),
       predict w' (startup (on_disk obj)) req
       = (Response 500 (PyDict [ (PyStr "error", PyStr "Model not loaded") ]),
          startup (on_disk obj)).
Proof.
  intros N M I Hk Hv.
  destruct (build_codec_raises label_map ([], []) k v I Hk Hv) as (e & B).
  assert (A : attach_codec pkg = Raise e).
  { unfold attach_codec. rewrite M. simpl. rewrite B. reflexivity. }
  assert (G : get_pipeline (on_disk obj) initial
              = (Raise e, {| _model_cache := {| loaded := false; package := PyNone |};
                             joblib_loads := 1 |})).
  { unfold get_pipeline, _ensure_loaded, prepare. simpl. rewrite N. simpl.
    rewrite A. reflexivity. }
  assert (P : PIPELINE_PACKAGE (startup (on_disk obj)) = PyNone).
  { unfold startup. rewrite G. reflexivity. }
  repeat split; eauto.
  - unfold health. rewrite P. reflexivity.
  - intros w' req. unfold predict. rewrite P. reflexivity.
Qed.

End WithExternals.

Lemma C3_missing_fields_witness :
  REQUIRED_FEATURES (startup (E := stub) two_fields) = names_list ["a"; "b"]
  /\ absent ["a"; "b"] [(PyStr "a", PyStr "x"); (PyStr "extra", PyInt 0)] <> []
  /\ predict (E := stub) two_fields (startup (E := stub) two_fields)
             (JsonBody (PyDict [(PyStr "a", PyStr "x"); (PyStr "extra", PyInt 0)]))
     = (Response 400
          (PyDict [ (PyStr "error", PyStr "Missing required fields");
                    (PyStr "missing_fields", PyList [PyStr "b"]) ]),
        startup (E := stub) two_fields).
Proof.
  split; [reflexivity |]. split; [discriminate |].
  apply (C3_missing_fields (E := stub) two_fields two_fields ["a"; "b"]
           [(PyStr "a", PyStr "x"); (PyStr "extra", PyInt 0)]).
  - reflexivity.
  - discriminate.
Defined.

Lemma C4_all_failing_fields_reported_witness :
  REQUIRED_FEATURES (startup (E := stub) two_fields) = names_list ["a"; "b"]
  /\ absent ["a"; "b"] [(PyStr "a", PyStr "x"); (PyStr "b", PyList [])] = []
  /\ fails [(PyStr "a", PyStr "x"); (PyStr "b", PyList [])] "a" = true
  /\ fails [(PyStr "a", PyStr "x"); (PyStr "b", PyList [])] "b" = true
  /\ exists details,
       predict (E := stub) two_fields (startup (E := stub) two_fields)
               (JsonBody (PyDict [(PyStr "a", PyStr "x"); (PyStr "b", PyList [])]))
       = (Response 400
            (PyDict [ (PyStr "error", PyStr "Wrong types for fields");
                      (PyStr "details", PyDict details) ]),
          startup (E := stub) two_fields)
       /\ (exists m, dict_lookup details (PyStr "a") = Some m)
       /\ (exists m, dict_lookup details (PyStr "b") = Some m).
Proof.
  split; [reflexivity |]. split; [reflexivity |].
  split; [reflexivity |]. split; [reflexivity |].
  destruct (C4_all_failing_fields_reported (E := stub) two_fields two_fields
              ["a"; "b"] [(PyStr "a", PyStr "x"); (PyStr "b", PyList [])]
              eq_refl eq_refl
              (ex_intro _ "a" (conj (or_introl eq_refl) eq_refl)))
    as (details & R & C & _).
  exists details. split; [exact R |]. split.
  - eexists. apply C; [left; reflexivity | reflexivity].
  - eexists. apply C; [right; left; reflexivity | reflexivity].
Defined.

Lemma C1_coercion_witness :
  REQUIRED_FEATURES (startup (E := stub) two_fields) = names_list ["a"; "b"]
  /\ absent ["a"; "b"] [(PyStr "a", PyStr "3.5"); (PyStr "b", PyBool true)] = []
  /\ validate_types (E := stub) (map PyStr ["a"; "b"])
                    [(PyStr "a", PyStr "3.5"); (PyStr "b", PyBool true)]
     = ([(PyStr "a", PyFloat f_3_5); (PyStr "b", PyBool true)], [])
  /\ dict_lookup [(PyStr "a", PyFloat f_3_5); (PyStr "b", PyBool true)] (PyStr "a")
     = Some (PyFloat f_3_5)
  /\ dict_lookup (@nil (pyval * pyval)) (PyStr "a") = None.
Proof.
  split; [reflexivity |]. split; [reflexivity |]. split; [reflexivity |].
  exact (proj2 (C1_coercion (E := stub) two_fields two_fields ["a"; "b"]
                  [(PyStr "a", PyStr "3.5"); (PyStr "b", PyBool true)]
                  [(PyStr "a", PyFloat f_3_5); (PyStr "b", PyBool true)] []
                  "a" (PyStr "3.5")
                  eq_refl eq_refl eq_refl (or_introl eq_refl) eq_refl)).
Defined.

Lemma C9_unconvertible_label_entry_witness :
  _normalize_package
    (artifact some_pipeline PyNone (PyDict [(PyStr "BENIGN", PyStr "benign")]))
  = Ok [ (PyStr "pipeline", some_pipeline);
         (PyStr "required_raw_features", PyNone);
         (PyStr "label_mapping", PyDict [(PyStr "BENIGN", PyStr "benign")]);
         (PyStr "model_metadata", PyNone) ]
  /\ is_ok (py_int (PyStr "BENIGN")) = false
  /\ is_ok (py_int (PyStr "benign")) = false
  /\ predict (E := stub) bad_labels (startup (E := stub) bad_labels)
             (JsonBody (PyDict [(PyStr "a", PyInt 1)]))
     = (Response 500 (PyDict [ (PyStr "error", PyStr "Model not loaded") ]),
        startup (E := stub) bad_labels).
Proof.
  split; [reflexivity |]. split; [reflexivity |]. split; [reflexivity |].
  apply (C9_unconvertible_label_entry (E := stub)
           (artifact some_pipeline PyNone (PyDict [(PyStr "BENIGN", PyStr "benign")]))
           [ (PyStr "pipeline", some_pipeline);
             (PyStr "required_raw_features", PyNone);
             (PyStr "label_mapping", PyDict [(PyStr "BENIGN", PyStr "benign")]);
             (PyStr "model_metadata", PyNone) ]
           [(PyStr "BENIGN", PyStr "benign")]
           (PyStr "BENIGN") (PyStr "benign")
           eq_refl eq_refl (or_introl eq_refl) eq_refl eq_refl).
Defined.

End AppClaims.

(** ** The answer of a successful prediction (C7) *)

Module InferenceClaims.
Import Py ModelLoader App Spec PyFacts LoaderFacts DecodeFacts AppFacts AppClaims.
Local Open Scope py_scope.

Lemma SFltb_irrefl (x : spec_float) : SFltb x x = false.
Proof.
  unfold SFltb, SFcompare.
  destruct x as [s | s | | s m e]; try reflexivity.
  - destruct s; reflexivity.
  - rewrite Z.compare_refl.
    change (Pos.compare_cont Eq m m) with (Pos.compare m m).
    rewrite Pos.compare_refl. destruct s; reflexivity.
Qed.

Lemma SFltb_trans (a b c : spec_float) :
  SFltb a b = true -> SFltb b c = true -> SFltb a c = true.
Proof.
  unfold SFltb, SFcompare.
  destruct a as [sa | sa | | sa ma ea], b as [sb | sb | | sb mb eb],
           c as [sc | sc | | sc mc ec];
    try destruct sa; try destruct sb; try destruct sc;
    try discriminate; try reflexivity;
    change (Pos.compare_cont Eq) with Pos.compare;
    repeat match goal with
           | |- context [Z.compare ?x ?y] => destruct (Z.compare_spec x y)
           | |- context [Pos.compare ?x ?y] => destruct (Pos.compare_spec x y)
           end; simpl; try discriminate; try reflexivity; intros; exfalso; lia.
Qed.

Lemma float_max_keeps (a b q : spec_float) :
  SFltb a q = false -> SFltb (float_max a b) q = false.
Proof.
  intros H. unfold float_max.
  destruct (is_nan a); [exact H |].
  destruct (is_nan b) eqn:Nb; [destruct b; try discriminate; reflexivity |].
  destruct (SFltb a b) eqn:L; [| exact H].
  destruct (SFltb b q) eqn:L'; [| reflexivity].
  rewrite (SFltb_trans _ _ _ L L') in H. discriminate.
Qed.

Lemma fold_max_keeps (row : list spec_float) (a q : spec_float) :
  SFltb a q = false -> SFltb (fold_left float_max row a) q = false.
Proof.
  revert a. induction row as [| b r IH]; intros a H; simpl; [exact H |].
  apply IH, float_max_keeps, H.
Qed.

Lemma float_max_right (a b : spec_float) : SFltb (float_max a b) b = false.
Proof.
  unfold float_max.
  destruct (is_nan a) eqn:Na; [destruct a; try discriminate; reflexivity |].
  destruct (is_nan b) eqn:Nb; [destruct b; try discriminate; reflexivity |].
  destruct (SFltb a b) eqn:L; [apply SFltb_irrefl | exact L].
Qed.

Lemma float_max_cases (a b : spec_float) :
  float_max a b = a \/ float_max a b = b.
Proof.
  unfold float_max.
  destruct (is_nan a); [left; reflexivity |].
  destruct (is_nan b); [right; reflexivity |].
  destruct (SFltb a b); [right | left]; reflexivity.
Qed.

(** The entry [row.max()] returns is in the row, and no entry of the row
    is greater. *)
Lemma row_max_is_maximum (row : list spec_float) (p : spec_float) :
  In (fold_left float_max row p) (p :: row)
  /\ forall q, In q (p :: row) -> SFltb (fold_left float_max row p) q = false.
Proof.
  revert p. induction row as [| b r IH]; intros p.
  - split; [left; reflexivity |].
    intros q [<- | []]. apply SFltb_irrefl.
  - simpl fold_left. destruct (IH (float_max p b)) as [I U]. split.
    + destruct I as [I | I]; [| right; right; exact I].
      destruct (float_max_cases p b) as [C | C]; rewrite C in I at 1.
      * left. exact I.
      * right. left. exact I.
    + intros q [<- | [<- | Q]].
      * apply fold_max_keeps, float_max_keeps, SFltb_irrefl.
      * apply fold_max_keeps, float_max_right.
      * apply U. right. exact Q.
Qed.

Lemma with_loader_same (a : app) : with_loader a (loader a) = a.
Proof. destruct a. reflexivity. Qed.

(** [round(x, 4)] on inputs whose results were taken from the interpreter:
    0.9, 0.12345 -> 0.1235, 0.15625 -> 0.1562 and 0.09375 -> 0.0938 (ties go
    to the even digit), 1e-05 -> 0.0. *)
Example py_round_examples :
  py_round f_0_9 4 = f_0_9
  /\ Some (py_round (S754_finite false 8895509983982204 (-56)) 4) = float_of_str "0.1235"
  /\ Some (py_round (S754_finite false 5629499534213120 (-55)) 4) = float_of_str "0.1562"
  /\ Some (py_round (S754_finite false 6755399441055744 (-56)) 4) = float_of_str "0.0938"
  /\ py_round (S754_finite false 5902958103587057 (-69)) 4 = S754_zero false
  /\ py_round (S754_infinity false) 4 = S754_infinity false
  /\ float_of_str "0.12345" = Some f_0_12345
  /\ float_of_str "0.87655" = Some f_0_87655
  /\ float_of_str "0.8766" = Some f_0_8766
  /\ py_round f_0_87655 4 = f_0_8766.
Proof. repeat split; reflexivity. Qed.

(** The stand-in for numpy's [max] returns an entry of the row that no
    entry exceeds. *)
Lemma row_max_spec (row : list spec_float) (p : spec_float) :
  row_max row = Ok p ->
  In p row /\ forall q, In q row -> SFltb p q = false.
Proof.
  destruct row as [| x r]; [discriminate |].
  intros [= <-]. apply row_max_is_maximum.
Qed.

Lemma div_half_even_nearest (a b : Z) :
  0 < b -> nearest_integer a b (div_half_even a b).
Proof.
  intros B. unfold nearest_integer, div_half_even.
  pose proof (Z.div_mod a b ltac:(lia)) as DM.
  pose proof (Z.mod_pos_bound a b B) as MB.
  destruct (Z.compare_spec (2 * (a mod b)) b) as [Q | Q | Q].
  - destruct (Z.even (a / b)) eqn:Ev.
    + split; [nia | intros _; exact Ev].
    + split; [nia |]. intros _.
      replace (a / b + 1) with (Z.succ (a / b)) by lia.
      rewrite Z.even_succ, <- Z.negb_even, Ev. reflexivity.
  - split; [nia | nia].
  - split; [nia | nia].
Qed.

(** [round(x, n)] rounds to [n] decimal places. *)
Lemma py_round_rounded (x : spec_float) (n : Z) :
  0 <= n -> rounded_to n x (py_round x n).
Proof.
  intros N. destruct x as [s | s | | s m e]; try reflexivity.
  unfold rounded_to, py_round.
  destruct (Z.leb_spec 0 e) as [P | P].
  - exists (Z.pos m * 2 ^ e * 10 ^ n). split; [| reflexivity].
    rewrite (Z.max_l e 0) by lia. rewrite (Z.max_r (- e) 0) by lia.
    change (2 ^ 0) with 1. unfold nearest_integer.
    replace (Z.pos m * 10 ^ n * 2 ^ e - Z.pos m * 2 ^ e * 10 ^ n * 1) with 0 by ring.
    simpl. split; [lia | discriminate].
  - exists (div_half_even (Z.pos m * 10 ^ n) (2 ^ (- e))). split; [| reflexivity].
    rewrite (Z.max_r e 0) by lia. rewrite (Z.max_l (- e) 0) by lia.
    change (2 ^ 0) with 1. rewrite Z.mul_1_r.
    apply div_half_even_nearest. apply Z.pow_pos_nonneg; lia.
Qed.

(** Two integers nearest to the same fraction are the same: the rounded
    value is determined. *)
Lemma nearest_integer_unique (num den k k' : Z) :
  0 < den ->
  nearest_integer num den k -> nearest_integer num den k' -> k = k'.
Proof.
  unfold nearest_integer. intros D [A1 A2] [B1 B2].
  destruct (Z.eq_dec k k') as [Q | Q]; [exact Q | exfalso].
  assert (T : k' = k + 1 \/ k = k' + 1) by nia.
  destruct T as [-> | ->].
  - assert (E1 : 2 * Z.abs (num - k * den) = den) by nia.
    assert (E2 : 2 * Z.abs (num - (k + 1) * den) = den) by nia.
    specialize (A2 E1). specialize (B2 E2).
    replace (k + 1) with (Z.succ k) in B2 by lia.
    rewrite Z.even_succ, <- Z.negb_even, A2 in B2. discriminate.
  - assert (E1 : 2 * Z.abs (num - k' * den) = den) by nia.
    assert (E2 : 2 * Z.abs (num - (k' + 1) * den) = den) by nia.
    specialize (B2 E1). specialize (A2 E2).
    replace (k' + 1) with (Z.succ k') in A2 by lia.
    rewrite Z.even_succ, <- Z.negb_even, B2 in A2. discriminate.
Qed.

Section WithExternals.
Context `{E : Externals}.

(** After startup the loader is either untouched or loaded. *)
Lemma startup_loader (w : world) :
  (joblib_loads (loader (startup w)) <= 1)%nat
  /\ (is_none (PIPELINE_PACKAGE (startup w)) = false ->
      loaded (_model_cache (loader (startup w))) = true).
Proof.
  split.
  - destruct (startup_cases w) as [(_ & _ & e & G) | (pkg & _ & _ & _ & _ & _ & _ & G)].
    + assert (S : loader (startup w) = snd (get_pipeline w initial)).
      { unfold startup. destruct (get_pipeline w initial) as [[v |] st]; [discriminate |].
        reflexivity. }
      rewrite S, get_pipeline_state, _ensure_loaded_unloaded by reflexivity.
      pose proof (prepare_loads w initial) as L.
      destruct (prepare w initial) as [[p |] st1]; simpl in *; subst st1;
        destruct w; simpl; lia.
    + pose proof (f_equal snd G) as S. simpl in S. rewrite <- S.
      rewrite get_pipeline_state, _ensure_loaded_unloaded by reflexivity.
      pose proof (prepare_loads w initial) as L.
      destruct (prepare w initial) as [[p |] st1]; simpl in *; subst st1;
        destruct w; simpl; lia.
  - destruct (startup_cases w) as [(N & _) | (pkg & _ & _ & L & _)].
    + rewrite N. discriminate.
    + intros _. exact L.
Qed.

(** No request changes the state of the server: the artifact file is read
    at startup or never. *)
Lemma predict_keeps_state (w w' : world) (req : request) :
  snd (predict w' (startup w) req) = startup w.
Proof.
  unfold predict.
  destruct (is_none (PIPELINE_PACKAGE (startup w))) eqn:N; [reflexivity |].
  pose proof (proj2 (startup_loader w) N) as L.
  destruct req as [| | payload]; try reflexivity.
  destruct payload; try reflexivity.
  match goal with
  | |- context [bind ?c ?k] => destruct (bind c k) as [[features [| f m]] | e]
  end; try reflexivity.
  destruct (validate_types features d) as [casted [| e es]]; [| reflexivity].
  destruct (DataFrame [casted] (REQUIRED_FEATURES (startup w))) as [df |];
    [| reflexivity].
  assert (R : snd (run_pipeline w' (startup w) df) = loader (startup w)).
  { unfold run_pipeline.
    match goal with
    | |- context [match ?c with Ok _ => _ | Raise _ => _ end] =>
        destruct c as [[pred_raw prob] | e]
    end; [| reflexivity].
    pose proof (decode_label_state w' (loader (startup w)) pred_raw) as S.
    rewrite (_ensure_loaded_loaded _ _ L) in S. simpl in S.
    destruct (decode_label w' (loader (startup w)) pred_raw) as [[decoded |] st];
      simpl in *; exact S. }
  destruct (run_pipeline w' (startup w) df) as [[body | e] st]; simpl in *;
    subst st; apply with_loader_same.
Qed.

(** C7: when the request passes validation, the frame is built, both
    pipeline calls return and give a first prediction and a first row,
    numpy's [max] returns for that row, [decode_label] has an answer for
    the prediction and that label can be serialised (as every string can),
    the answer is 200 with [prediction] the decoded first prediction and
    [confidence] the maximum of the first row of probabilities rounded to
    four decimal places: the float nearest to [k / 10000], where [k] is the
    integer nearest to the maximum times 10000 (the even one of two equally
    near).  That numpy's [max] returns an entry of the row that no entry
    exceeds is numpy's contract, taken as a hypothesis. *)
Theorem C7_success_response (w w' : world) (names : list string)
        (pkg payload casted : pydict) (df : frame)
        (pred_raw label : pyval) (preds : list pyval)
        (prob : spec_float) (row : list spec_float) (rows : list (list spec_float)) :
  (forall r p, ndarray_max r = Ok p ->
               In p r /\ forall q, In q r -> SFltb p q = false) ->
  PIPELINE_PACKAGE (startup w) = PyDict pkg ->
  REQUIRED_FEATURES (startup w) = names_list names ->
  absent names payload = [] ->
  validate_types (map PyStr names) payload = (casted, []) ->
  DataFrame [casted] (names_list names) = Ok df ->
  pipeline_predict (dict_get pkg "pipeline") df = Ok (pred_raw :: preds) ->
  pipeline_predict_proba (dict_get pkg "pipeline") df = Ok (row :: rows) ->
  ndarray_max row = Ok prob ->
  decode_spec pkg pred_raw = Ok label ->
  json_ok label = true ->
  decode_label w' (loader (startup w)) pred_raw = (Ok label, loader (startup w))
  /\ (exists confidence,
        predict w' (startup w) (JsonBody (PyDict payload))
        = (Response 200
             (PyDict [ (PyStr "prediction", label);
                       (PyStr "confidence", PyFloat confidence) ]),
           startup w)
        /\ rounded_to 4 prob confidence)
  /\ In prob row
  /\ forall q, In q row -> SFltb prob q = false.
Proof.
  intros Hmax P S A V D Hp Hq Hm Hl J.
  assert (DL : decode_label w' (loader (startup w)) pred_raw
               = (Ok label, loader (startup w))).
  { destruct (startup_cases w) as [(N & _) | (pkg' & P' & _ & L & C & _ & W & _)].
    - rewrite N in P. discriminate.
    - rewrite P in P'. injection P' as <-.
      unfold decode_label. rewrite (_ensure_loaded_loaded _ _ L), C.
      rewrite decode_with_spec; [rewrite Hl; reflexivity | apply W]. }
  split; [exact DL |]. split; [| exact (Hmax row prob Hm)].
  exists (py_round prob 4). split; [| apply py_round_rounded; lia].
  rewrite (predict_object w' _ names payload); [| rewrite P; reflexivity | exact S].
  rewrite A, V. cbn [map]. rewrite D.
  unfold run_pipeline. rewrite P. cbn [pipeline_of]. rewrite Hp, Hq.
  cbn [bind first]. rewrite Hm. cbn [bind]. rewrite DL.
  unfold jsonify.
  assert (J' : json_ok (PyDict [ (PyStr "prediction", label);
                                 (PyStr "confidence", PyFloat (py_round prob 4)) ])
               = true).
  { cbn [json_ok forallb fst snd json_key_ok andb map sortable isinstance_str orb] in *.
    rewrite J. reflexivity. }
  rewrite J', with_loader_same. reflexivity.
Qed.

End WithExternals.

Lemma C7_success_response_witness :
  exists confidence,
    predict (E := numpy_stub) two_fields (startup (E := numpy_stub) two_fields)
            (JsonBody (PyDict [(PyStr "a", PyInt 1); (PyStr "b", PyStr "2.5")]))
    = (Response 200
         (PyDict [ (PyStr "prediction", PyStr "1");
                   (PyStr "confidence", PyFloat confidence) ]),
       startup (E := numpy_stub) two_fields)
    /\ rounded_to 4 f_0_87655 confidence
    /\ confidence = f_0_8766.
Proof.
  destruct (C7_success_response (E := numpy_stub) two_fields two_fields ["a"; "b"]
       [ (PyStr "pipeline", some_pipeline);
         (PyStr "required_raw_features", names_list ["a"; "b"]);
         (PyStr "label_mapping", PyDict [(PyInt 1, PyStr "DDoS")]);
         (PyStr "model_metadata", PyNone);
         (PyStr "_label_id_to_name", PyDict [(PyInt 1, PyStr "DDoS")]);
         (PyStr "_label_name_to_id", PyDict [(PyStr "DDoS", PyInt 1)]) ]
       [(PyStr "a", PyInt 1); (PyStr "b", PyStr "2.5")]
       [(PyStr "a", PyInt 1); (PyStr "b", PyFloat f_2_5)]
       {| columns := names_list ["a"; "b"];
          rows := [[(PyStr "a", PyInt 1); (PyStr "b", PyFloat f_2_5)]] |}
       (PyNpInt 1) (PyStr "1") [] f_0_87655 [f_0_12345; f_0_87655] []
       row_max_spec
       eq_refl eq_refl eq_refl eq_refl eq_refl eq_refl eq_refl eq_refl eq_refl eq_refl)
    as (_ & (confidence & H & R) & _).
  exists confidence. split; [exact H |]. split; [exact R |].
  assert (Q : predict (E := numpy_stub) two_fields (startup (E := numpy_stub) two_fields)
                (JsonBody (PyDict [(PyStr "a", PyInt 1); (PyStr "b", PyStr "2.5")]))
              = (Response 200
                   (PyDict [ (PyStr "prediction", PyStr "1");
                             (PyStr "confidence", PyFloat f_0_8766) ]),
                 startup (E := numpy_stub) two_fields)) by reflexivity.
  rewrite Q in H. congruence.
Defined.

End InferenceClaims.

(** ** The two orientations of a label mapping (C2) *)

Module CodecClaims.
Import Py ModelLoader App Spec PyFacts LoaderFacts DecodeFacts.
Local Open Scope py_scope.

Lemma set_all_absent (entries : list (Z * pyval)) (d : pydict) (j : Z) :
  (forall v, ~ In (j, v) entries) ->
  dict_lookup (set_all entries d) (PyInt j) = dict_lookup d (PyInt j).
Proof.
  revert d. induction entries as [| [i x] r IH]; intros d H; [reflexivity |].
  unfold set_all in *. simpl. rewrite IH.
  - rewrite dict_lookup_set_int.
    destruct (Z.eqb_spec i j) as [-> | N]; [| reflexivity].
    exfalso. apply (H x). left. reflexivity.
  - intros v I. apply (H v). right. exact I.
Qed.

Lemma set_all_present (entries : list (Z * pyval)) (d : pydict) (j : Z) (v : pyval) :
  In (j, v) entries ->
  (forall v', In (j, v') entries -> v' = v) ->
  dict_lookup (set_all entries d) (PyInt j) = Some v.
Proof.
  revert d. induction entries as [| [i x] r IH]; intros d I F; [destruct I |].
  unfold set_all in *. simpl.
  destruct (in_dec Z.eq_dec j (map fst r)) as [M | M].
  - apply in_map_iff in M. destruct M as ([j' v'] & <- & M). simpl in *.
    assert (v' = v) by (apply F; right; exact M). subst v'.
    apply IH; [exact M |]. intros v'' I''. apply F. right. exact I''.
  - fold (set_all r (dict_set d (PyInt i) x)). rewrite set_all_absent.
    + destruct I as [[= -> ->] | I].
      * rewrite dict_lookup_set_int, Z.eqb_refl. reflexivity.
      * exfalso. apply M. apply in_map_iff. exists (j, v). split; [reflexivity | exact I].
    + intros v' I'. apply M. apply in_map_iff. exists (j, v'). split; [reflexivity | exact I'].
Qed.

Section WithExternals.
Context `{E : Externals}.

(** The loop of [_ensure_loaded] on a mapping keyed by id. *)
Lemma build_codec_by_id (m : list (Z * string)) (acc : pydict * pydict) :
  exists name_to_id,
    build_codec (map (fun e => (PyInt (fst e), PyStr (snd e))) m) acc
    = Ok (set_all (entries_by_id m) (fst acc), name_to_id).
Proof.
  revert acc. induction m as [| [i n] r IH]; intros [a b].
  - exists b. reflexivity.
  - simpl. apply IH.
Qed.

(** The same loop on a mapping keyed by name, when no name reads as an
    integer. *)
Lemma build_codec_by_name (m : list (string * Z)) (acc : pydict * pydict) :
  (forall n i, In (n, i) m -> int_of_str n = None) ->
  exists name_to_id,
    build_codec (map (fun e => (PyStr (fst e), PyInt (snd e))) m) acc
    = Ok (set_all (entries_by_name m) (fst acc), name_to_id).
Proof.
  revert acc. induction m as [| [n i] r IH]; intros [a b] H.
  - exists b. reflexivity.
  - cbn [map build_codec codec_entry fst snd py_int].
    rewrite (H n i (or_introl eq_refl)).
    cbn [codec_entry_except py_int bind py_str].
    apply IH. intros n' i' I. apply (H n' i'). right. exact I.
Qed.

Lemma normalize_artifact (pipeline features label_map : pyval) :
  truthy pipeline = true ->
  _normalize_package (artifact pipeline features label_map)
  = Ok [ (PyStr "pipeline", pipeline);
         (PyStr "required_raw_features", features);
         (PyStr "label_mapping", label_map);
         (PyStr "model_metadata", PyNone) ].
Proof.
  intros T.
  assert (N : is_none pipeline = false)
    by (destruct pipeline; [discriminate | ..]; reflexivity).
  unfold _normalize_package, artifact.
  cbv [dict_get dict_lookup key_eqb String.eqb Ascii.eqb Bool.eqb as_int].
  unfold py_or. rewrite T. cbn [truthy]. rewrite T, N. reflexivity.
Qed.

(** Decoding right after a load of a container artifact. *)
Lemma decode_label_artifact (pipeline features p : pyval)
      (label_map id_to_name name_to_id : pydict) :
  truthy pipeline = true ->
  build_codec label_map ([], []) = Ok (id_to_name, name_to_id) ->
  fst (decode_label (on_disk (artifact pipeline features (PyDict label_map))) initial p)
  = match prediction_id p with
    | Some pid =>
        match dict_lookup id_to_name (PyInt pid) with
        | Some name => Ok name
        | None => text <- str_of_int pid ;; Ok (PyStr text)
        end
    | None =>
        match p with
        | PyStr s => Ok (PyStr s)
        | _ => text <- py_str p ;; Ok (PyStr text)
        end
    end.
Proof.
  intros T B.
  unfold decode_label, _ensure_loaded, prepare, _load_model_file, on_disk.
  cbn [initial loaded _model_cache bind].
  rewrite (normalize_artifact _ features (PyDict label_map) T). cbn [bind].
  unfold attach_codec.
  cbv [dict_get dict_lookup key_eqb String.eqb Ascii.eqb Bool.eqb as_int
       is_none negb py_items].
  cbn [bind]. rewrite B. cbn [bind fst snd package _model_cache].
  rewrite decode_with_spec.
  - unfold decode_spec, codec_name. rewrite !dict_get_set. reflexivity.
  - right. exists id_to_name. rewrite !dict_get_set. reflexivity.
Qed.

End WithExternals.

Section WithExternals.
Context `{E : Externals}.

(** The two codecs answer every id alike. *)
Lemma same_mapping_lookup (by_id : list (Z * string)) (by_name : list (string * Z))
      (j : Z) :
  NoDup (map fst by_id) ->
  same_mapping by_id by_name ->
  dict_lookup (set_all (entries_by_id by_id) []) (PyInt j)
  = dict_lookup (set_all (entries_by_name by_name) []) (PyInt j)
  /\ forall n, In (j, n) by_id ->
       dict_lookup (set_all (entries_by_id by_id) []) (PyInt j) = Some (PyStr n).
Proof.
  intros U S.
  assert (F : forall n n', In (j, n) by_id -> In (j, n') by_id -> n' = n).
  { intros n n' I I'. clear S. induction by_id as [| [i x] r IH]; [destruct I |].
    simpl in U. inversion U as [| ? ? X U']; subst.
    destruct I as [Q | I], I' as [Q' | I'].
    - congruence.
    - exfalso. injection Q as -> ->. apply X. apply in_map_iff.
      exists (j, n'). split; [reflexivity | exact I'].
    - exfalso. injection Q' as -> ->. apply X. apply in_map_iff.
      exists (j, n). split; [reflexivity | exact I].
    - apply IH; assumption. }
  assert (I1 : forall v, In (j, v) (entries_by_id by_id)
                         <-> exists n, v = PyStr n /\ In (j, n) by_id).
  { intros v. unfold entries_by_id. rewrite in_map_iff. split.
    - intros ([i n] & Q & I). simpl in Q. injection Q as <- <-. eauto.
    - intros (n & -> & I). exists (j, n). split; [reflexivity | exact I]. }
  assert (I2 : forall v, In (j, v) (entries_by_name by_name)
                         <-> exists n, v = PyStr n /\ In (j, n) by_id).
  { intros v. unfold entries_by_name. rewrite in_map_iff. split.
    - intros ([n i] & Q & I). simpl in Q. injection Q as <- <-.
      exists n. split; [reflexivity |]. apply S. exact I.
    - intros (n & -> & I). exists (n, j). split; [reflexivity |]. apply S. exact I. }
  assert (P : forall n, In (j, n) by_id ->
                dict_lookup (set_all (entries_by_id by_id) []) (PyInt j) = Some (PyStr n)
                /\ dict_lookup (set_all (entries_by_name by_name) []) (PyInt j)
                   = Some (PyStr n)).
  { intros n I. split; apply set_all_present.
    - apply I1. eauto.
    - intros v' I'. apply I1 in I'. destruct I' as (n' & -> & I').
      f_equal. eapply F; eassumption.
    - apply I2. eauto.
    - intros v' I'. apply I2 in I'. destruct I' as (n' & -> & I').
      f_equal. eapply F; eassumption. }
  split.
  - destruct (in_dec Z.eq_dec j (map fst by_id)) as [M | M].
    + apply in_map_iff in M. destruct M as ([j' n] & <- & M). simpl in *.
      destruct (P n M) as [-> ->]. reflexivity.
    + rewrite !set_all_absent; [reflexivity | |].
      * intros v I. apply I2 in I. destruct I as (n & _ & I).
        apply M. apply in_map_iff. exists (j, n). split; [reflexivity | exact I].
      * intros v I. apply I1 in I. destruct I as (n & _ & I).
        apply M. apply in_map_iff. exists (j, n). split; [reflexivity | exact I].
  - intros n I. apply (P n I).
Qed.

(** What decoding answers when the codec does not name the prediction:
    nothing, exactly when the prediction is an [int] beyond the digit limit
    or a value, neither [int] nor [str], whose [str] raises. *)
Lemma unnamed_outcome (p : pyval) (pid : option Z) (found : Z -> option pyval) :
  pid = prediction_id p ->
  is_ok match pid with
        | Some i =>
            match found i with
            | Some name => Ok name
            | None => text <- str_of_int i ;; Ok (PyStr text)
            end
        | None =>
            match p with
            | PyStr s => Ok (PyStr s)
            | _ => text <- py_str p ;; Ok (PyStr text)
            end
        end = false ->
  (exists z, p = PyInt z /\ is_ok (str_of_int z) = false)
  \/ (isinstance_int p = false /\ isinstance_str p = false
      /\ is_ok (py_str p) = false).
Proof.
  intros ->.
  destruct p as [| b | z | f | s | l | d | c a | nz]; cbn [prediction_id].
  - discriminate.
  - destruct (found (if b then 1 else 0)); [discriminate |]. destruct b; discriminate.
  - destruct (found z); [discriminate |]. intros H. left. exists z. split; [reflexivity |].
    destruct (str_of_int z); [discriminate | reflexivity].
  - cbn [py_str]. intros H. right. repeat split.
    destruct (str_of_value (PyFloat f)); [discriminate | reflexivity].
  - destruct (decimal_string s && (Z.of_nat (String.length s) <=? max_str_digits)) eqn:D;
      [| discriminate].
    apply andb_true_iff in D. destruct D as [D L].
    destruct (found (digits_value (chars s))); [discriminate |].
    rewrite (TextFacts.str_of_int_digits s D L). discriminate.
  - cbn [py_str]. intros H. right. repeat split.
    destruct (str_of_value (PyList l)); [discriminate | reflexivity].
  - cbn [py_str]. intros H. right. repeat split.
    destruct (str_of_value (PyDict d)); [discriminate | reflexivity].
  - cbn [py_str]. intros H. right. repeat split.
    destruct (str_of_value (PyObj c a)); [discriminate | reflexivity].
  - discriminate.
Qed.

(** C2, amended: a mapping keyed by id and the same mapping keyed by name
    give codecs that decode every prediction alike, and an id to its name,
    provided no name reads as an integer (such a name, as a key, is taken
    for an id); from [{0: "BENIGN", 1: "DDoS"}] decoding [0] gives
    ["BENIGN"], and from [{"BENIGN": 0, "DDoS": 1}] decoding [1] gives
    ["DDoS"].  Alike means with the same outcome: the same label, or, on an
    [int] beyond the digit limit or a value whose [str] raises, the same
    exception. *)
Theorem C2_codec_orientations (by_id : list (Z * string)) (by_name : list (string * Z))
        (pipeline features p : pyval) :
  NoDup (map fst by_id) ->
  same_mapping by_id by_name ->
  (forall n i, In (n, i) by_name -> int_of_str n = None) ->
  truthy pipeline = true ->
  (exists outcome,
     fst (decode_label (on_disk (artifact pipeline features (id_keyed by_id)))
                       initial p) = outcome
     /\ fst (decode_label (on_disk (artifact pipeline features (name_keyed by_name)))
                          initial p) = outcome
     /\ (forall i n, In (i, n) by_id -> p = PyInt i -> outcome = Ok (PyStr n))
     /\ (is_ok outcome = false ->
         (exists z, p = PyInt z /\ is_ok (str_of_int z) = false)
         \/ (isinstance_int p = false /\ isinstance_str p = false
             /\ is_ok (py_str p) = false)))
  /\ fst (decode_label (on_disk (artifact pipeline features by_id_example))
                       initial (PyInt 0)) = Ok (PyStr "BENIGN")
  /\ fst (decode_label (on_disk (artifact pipeline features by_name_example))
                       initial (PyInt 1)) = Ok (PyStr "DDoS").
Proof.
  intros U S H T. split; [| split].
  - destruct (build_codec_by_id by_id ([], [])) as (n1 & B1).
    destruct (build_codec_by_name by_name ([], []) H) as (n2 & B2).
    unfold id_keyed, name_keyed.
    rewrite (decode_label_artifact _ _ _ _ _ _ T B1).
    rewrite (decode_label_artifact _ _ _ _ _ _ T B2).
    eexists. split; [reflexivity |]. split; [| split].
    + destruct (prediction_id p) as [pid |]; [| reflexivity].
      cbn [fst]. destruct (same_mapping_lookup by_id by_name pid U S) as [<- _].
      reflexivity.
    + intros i n I ->. cbn [prediction_id fst].
      destruct (same_mapping_lookup by_id by_name i U S) as [_ L].
      rewrite (L n I). reflexivity.
    + apply (unnamed_outcome p (prediction_id p)
               (fun i => dict_lookup (set_all (entries_by_id by_id) []) (PyInt i))
               eq_refl).
  - destruct (build_codec_by_id [(0, "BENIGN"); (1, "DDoS")] ([], [])) as (n1 & B1).
    unfold by_id_example, id_keyed.
    rewrite (decode_label_artifact _ _ _ _ _ _ T B1). reflexivity.
  - assert (H' : forall n i, In (n, i) [("BENIGN", 0); ("DDoS", 1)] -> int_of_str n = None).
    { intros n i [[= <- <-] | [[= <- <-] | []]]; reflexivity. }
    destruct (build_codec_by_name [("BENIGN", 0); ("DDoS", 1)] ([], []) H') as (n2 & B2).
    unfold by_name_example, name_keyed.
    rewrite (decode_label_artifact _ _ _ _ _ _ T B2). reflexivity.
Qed.

End WithExternals.

(** C2, as stated, fails when a name reads as an integer: [{0: "7"}] and
    [{"7": 0}] say the same, yet the first decodes [0] to ["7"] and the
    second, which takes the key ["7"] for the id 7, decodes [0] to ["0"]. *)
Lemma C2_numeric_name_breaks_equivalence :
  same_mapping [(0, "7")] [("7", 0)]
  /\ fst (decode_label (E := stub)
            (on_disk (artifact some_pipeline PyNone (id_keyed [(0, "7")])))
            initial (PyInt 0)) = Ok (PyStr "7")
  /\ fst (decode_label (E := stub)
            (on_disk (artifact some_pipeline PyNone (name_keyed [("7", 0)])))
            initial (PyInt 0)) = Ok (PyStr "0").
Proof.
  split; [| split; reflexivity].
  intros i n. simpl. split; intros [[= <- <-] | []]; left; reflexivity.
Qed.

Lemma C2_codec_orientations_witness :
  NoDup (map fst [(0, "BENIGN"); (1, "DDoS")])
  /\ same_mapping [(0, "BENIGN"); (1, "DDoS")] [("DDoS", 1); ("BENIGN", 0)]
  /\ (forall n i, In (n, i) [("DDoS", 1); ("BENIGN", 0)] -> int_of_str n = None)
  /\ exists name,
       fst (decode_label (E := stub)
              (on_disk (artifact some_pipeline PyNone
                                 (id_keyed [(0, "BENIGN"); (1, "DDoS")])))
              initial (PyStr "1")) = Ok name
       /\ fst (decode_label (E := stub)
                 (on_disk (artifact some_pipeline PyNone
                                    (name_keyed [("DDoS", 1); ("BENIGN", 0)])))
                 initial (PyStr "1")) = Ok name.
Proof.
  assert (U : NoDup (map fst [(0, "BENIGN"); (1, "DDoS")])).
  { simpl. constructor.
    - intros [H | []]; discriminate.
    - constructor; [intros [] | constructor]. }
  assert (S : same_mapping [(0, "BENIGN"); (1, "DDoS")] [("DDoS", 1); ("BENIGN", 0)]).
  { intros i n. simpl. split.
    - intros [[= <- <-] | [[= <- <-] | []]]; auto.
    - intros [[= <- <-] | [[= <- <-] | []]]; auto. }
  assert (H : forall n i, In (n, i) [("DDoS", 1); ("BENIGN", 0)] -> int_of_str n = None).
  { intros n i [[= <- <-] | [[= <- <-] | []]]; reflexivity. }
  split; [exact U |]. split; [exact S |]. split; [exact H |].
  destruct (C2_codec_orientations (E := stub)
              [(0, "BENIGN"); (1, "DDoS")] [("DDoS", 1); ("BENIGN", 0)]
              some_pipeline PyNone (PyStr "1") U S H eq_refl)
    as ((outcome & A & B & _) & _).
  exists (PyStr "DDoS").
  assert (Q : fst (decode_label (E := stub)
                     (on_disk (artifact some_pipeline PyNone
                                        (id_keyed [(0, "BENIGN"); (1, "DDoS")])))
                     initial (PyStr "1")) = Ok (PyStr "DDoS")) by reflexivity.
  split; [exact Q |]. rewrite B, <- A. exact Q.
Defined.

End CodecClaims.

(** ** Concurrent first loads (C8) *)

Module ConcurrentClaims.
Import Py ModelLoader Spec PyFacts LoaderFacts Concurrent.
Local Open Scope py_scope.

Lemma upd_eq (f : nat -> pc) (i : nat) (p : pc) : upd f i p i = p.
Proof. unfold upd. rewrite Nat.eqb_refl. reflexivity. Qed.

Lemma upd_neq (f : nat -> pc) (i j : nat) (p : pc) : j <> i -> upd f i p j = f j.
Proof.
  intros N. unfold upd. destruct (Nat.eqb_spec j i); [contradiction | reflexivity].
Qed.

(** Thread [j] is the one that moved, or another one. *)
Ltac moved_or_not j i :=
  destruct (Nat.eq_dec j i) as [-> | ?N];
  [rewrite upd_eq | rewrite upd_neq by assumption].

Lemma pc_ok_mono (good : pydict) (st st' : process) (p : pc) :
  critical p = false ->
  (loaded (_model_cache st) = true -> loaded (_model_cache st') = true) ->
  pc_ok good st p -> pc_ok good st' p.
Proof.
  destruct p as [| | | | | pkg | | r | | v | e]; simpl; try discriminate; try tauto.
Qed.

Lemma sole_critical (good : pydict) (c : config) (i j : nat) :
  invariant good c ->
  critical (pcs c i) = true -> critical (pcs c j) = true -> j = i.
Proof.
  intros I Hi Hj. apply (inv_lock _ _ I) in Hi. apply (inv_lock _ _ I) in Hj.
  congruence.
Qed.

Lemma others_not_critical (good : pydict) (c : config) (i j : nat) :
  invariant good c -> critical (pcs c i) = true -> j <> i ->
  critical (pcs c j) = false.
Proof.
  intros I Hi N. destruct (critical (pcs c j)) eqn:Hj; [| reflexivity].
  exfalso. apply N. eapply sole_critical; eassumption.
Qed.

Lemma storing_critical (p : pc) : storing p = true -> critical p = true.
Proof. destruct p; simpl; congruence. Qed.

Section WithExternals.
Context `{E : Externals}.

(** What the preparation yields does not depend on the cache. *)
Lemma prepare_result (w : world) (st : process) :
  fst (prepare w st) = fst (prepare w initial).
Proof. unfold prepare, _load_model_file. destruct w; reflexivity. Qed.

Lemma prepare_good (w : world) (st : process) (good : pydict) :
  fst (prepare w initial) = Ok good ->
  prepare w st
  = (Ok good, {| _model_cache := _model_cache st;
                 joblib_loads := S (joblib_loads st) |}).
Proof.
  intros G. rewrite <- (prepare_result w st) in G.
  pose proof (prepare_loads w st) as L.
  destruct (prepare w st) as [r st1] eqn:P. simpl in G, L. subst r st1.
  destruct w; [reflexivity |].
  unfold prepare, _load_model_file in P. simpl in P. discriminate.
Qed.

Lemma init_invariant (good : pydict) (n : nat) : invariant good (init n).
Proof.
  constructor; simpl.
  - intros i. destruct (Nat.ltb i n); simpl; split; discriminate.
  - intros i. destruct (Nat.ltb i n); exact I.
  - discriminate.
  - intros _. left. reflexivity.
Qed.

(** Every statement of every thread keeps the invariant. *)
Lemma thread_step_invariant (w : world) (good : pydict) (c c' : config) (i : nat) :
  fst (prepare w initial) = Ok good ->
  invariant good c ->
  thread_step w c i = Some c' ->
  invariant good c'.
Proof.
  intros G I S. unfold thread_step in S.
  pose proof (inv_pc _ _ I i) as Ki.
  destruct (pcs c i) as [| | | | | pkg | | r | | v | e] eqn:Pi; try discriminate.
  - (* Start *)
    injection S as <-.
    assert (NL : lock c <> Some i).
    { intros L. apply (inv_lock _ _ I) in L. rewrite Pi in L. discriminate. }
    constructor; simpl.
    + intros j. moved_or_not j i.
      * destruct (loaded (_model_cache (proc c))); simpl; split;
          try discriminate; intros; contradiction.
      * apply (inv_lock _ _ I).
    + intros j. moved_or_not j i.
      * destruct (loaded (_model_cache (proc c))) eqn:L; simpl; auto.
      * apply (inv_pc _ _ I).
    + apply (inv_loaded _ _ I).
    + intros L. destruct (inv_unloaded _ _ I L) as [Z | (k & K)]; [left; exact Z |].
      right. exists k. rewrite upd_neq; [exact K |].
      intros ->. rewrite Pi in K. discriminate.
  - (* Acquire *)
    destruct (lock c) eqn:Lk; [discriminate |]. injection S as <-.
    assert (NC : forall j, critical (pcs c j) = false).
    { intros j. destruct (critical (pcs c j)) eqn:C; [| reflexivity].
      apply (inv_lock _ _ I) in C. congruence. }
    constructor; simpl.
    + intros j. moved_or_not j i.
      * simpl. tauto.
      * rewrite NC.
        split; [discriminate | intros [= Q]; congruence].
    + intros j. moved_or_not j i.
      * exact Logic.I.
      * apply (inv_pc _ _ I).
    + apply (inv_loaded _ _ I).
    + intros L. destruct (inv_unloaded _ _ I L) as [Z | (k & K)]; [left; exact Z |].
      apply storing_critical in K. rewrite NC in K. discriminate.
  - (* Locked *)
    injection S as <-.
    assert (Lk : lock c = Some i) by (apply (inv_lock _ _ I); rewrite Pi; reflexivity).
    constructor; simpl.
    + intros j. moved_or_not j i.
      * destruct (loaded (_model_cache (proc c))); simpl; tauto.
      * apply (inv_lock _ _ I).
    + intros j. moved_or_not j i.
      * destruct (loaded (_model_cache (proc c))) eqn:L; simpl; [exact L |].
        split; [exact L |].
        destruct (inv_unloaded _ _ I L) as [Z | (k & K)]; [exact Z |].
        exfalso. pose proof (storing_critical _ K) as C.
        apply (inv_lock _ _ I) in C.
        assert (k = i) by congruence. subst k. rewrite Pi in K. discriminate.
      * apply (inv_pc _ _ I).
    + apply (inv_loaded _ _ I).
    + intros L. destruct (inv_unloaded _ _ I L) as [Z | (k & K)]; [left; exact Z |].
      right. exists k. rewrite upd_neq; [exact K |].
      intros ->. rewrite Pi in K. discriminate.
  - (* Loading *)
    rewrite (prepare_good w (proc c) good G) in S. injection S as <-.
    simpl in Ki. destruct Ki as [L Z].
    assert (C : critical (pcs c i) = true) by (rewrite Pi; reflexivity).
    constructor; simpl.
    + intros j. moved_or_not j i.
      * simpl. rewrite <- (inv_lock _ _ I i), Pi. simpl. tauto.
      * apply (inv_lock _ _ I).
    + intros j. moved_or_not j i.
      * simpl. rewrite Z. auto.
      * apply (pc_ok_mono good (proc c)); [| auto | apply (inv_pc _ _ I)].
        eapply others_not_critical; eassumption.
    + rewrite L. discriminate.
    + intros _. right. exists i. rewrite upd_eq. reflexivity.
  - (* Store *)
    injection S as <-. simpl in Ki. destruct Ki as (-> & L & Z).
    assert (C : critical (pcs c i) = true) by (rewrite Pi; reflexivity).
    constructor; simpl.
    + intros j. moved_or_not j i.
      * simpl. rewrite <- (inv_lock _ _ I i), Pi. simpl. tauto.
      * apply (inv_lock _ _ I).
    + intros j. moved_or_not j i.
      * simpl. auto.
      * apply (pc_ok_mono good (proc c)); [| auto | apply (inv_pc _ _ I)].
        eapply others_not_critical; eassumption.
    + rewrite L. discriminate.
    + intros _. right. exists i. rewrite upd_eq. reflexivity.
  - (* Flag *)
    injection S as <-. simpl in Ki. destruct Ki as (P & L & Z).
    assert (C : critical (pcs c i) = true) by (rewrite Pi; reflexivity).
    constructor; simpl.
    + intros j. moved_or_not j i.
      * simpl. rewrite <- (inv_lock _ _ I i), Pi. simpl. tauto.
      * apply (inv_lock _ _ I).
    + intros j. moved_or_not j i.
      * reflexivity.
      * apply (pc_ok_mono good (proc c)); [| auto | apply (inv_pc _ _ I)].
        eapply others_not_critical; eassumption.
    + auto.
    + discriminate.
  - (* Release *)
    injection S as <-.
    destruct r as [e |]; simpl in Ki; [contradiction |].
    assert (C : critical (pcs c i) = true) by (rewrite Pi; reflexivity).
    constructor; simpl.
    + intros j. moved_or_not j i.
      * simpl. split; discriminate.
      * rewrite (others_not_critical good c i j I C N). split; discriminate.
    + intros j. moved_or_not j i.
      * exact Ki.
      * apply (inv_pc _ _ I).
    + apply (inv_loaded _ _ I).
    + rewrite Ki. discriminate.
  - (* Read *)
    injection S as <-. simpl in Ki.
    assert (NL : lock c <> Some i).
    { intros L. apply (inv_lock _ _ I) in L. rewrite Pi in L. discriminate. }
    constructor; simpl.
    + intros j. moved_or_not j i.
      * simpl. split; [discriminate | intros; contradiction].
      * apply (inv_lock _ _ I).
    + intros j. moved_or_not j i.
      * simpl. split; [apply (inv_loaded _ _ I Ki) | exact Ki].
      * apply (inv_pc _ _ I).
    + apply (inv_loaded _ _ I).
    + rewrite Ki. discriminate.
Qed.

Lemma run_invariant (w : world) (good : pydict) (sched : list nat) (c : config) :
  fst (prepare w initial) = Ok good ->
  invariant good c ->
  invariant good (run w c sched).
Proof.
  intros G. revert c. induction sched as [| i rest IH]; intros c I; [exact I |].
  simpl. destruct (thread_step w c i) as [c' |] eqn:S.
  - apply IH. eapply thread_step_invariant; eassumption.
  - apply IH, I.
Qed.

End WithExternals.

Section WithExternals.
Context `{E : Externals}.

(** A single caller, run to its end, does what [get_pipeline] does. *)
Lemma single_caller_agrees (w : world) :
  let c := run w (init 1) (repeat 0%nat 8) in
  proc c = snd (get_pipeline w initial)
  /\ pcs c 0%nat = match fst (get_pipeline w initial) with
                   | Ok v => Done v
                   | Raise e => Failed e
                   end.
Proof.
  unfold get_pipeline, _ensure_loaded. cbn [initial loaded _model_cache].
  cbn -[prepare]. destruct (prepare w initial) as [[pkg | e] st1]; split; reflexivity.
Qed.

(** A statement shortens what its thread has left and moves no other
    thread. *)
Lemma thread_step_progress (w : world) (c c' : config) (i : nat) :
  thread_step w c i = Some c' ->
  (remaining (pcs c' i) < remaining (pcs c i))%nat
  /\ forall j, j <> i -> pcs c' j = pcs c j.
Proof.
  unfold thread_step. intros S.
  assert (G : exists p,
             pcs c' = upd (pcs c) i p
             /\ (remaining p < remaining (pcs c i))%nat).
  { destruct (pcs c i) as [| | | | | pkg | | r | | v | e]; try discriminate.
    - injection S as <-. eexists. split; [reflexivity |].
      destruct (loaded _); simpl; lia.
    - destruct (lock c); [discriminate |]. injection S as <-.
      eexists. split; [reflexivity | simpl; lia].
    - injection S as <-. eexists. split; [reflexivity |].
      destruct (loaded _); simpl; lia.
    - destruct (prepare w (proc c)) as [[pkg | e] st1]; injection S as <-;
        eexists; (split; [reflexivity | simpl; lia]).
    - injection S as <-. eexists. split; [reflexivity | simpl; lia].
    - injection S as <-. eexists. split; [reflexivity | simpl; lia].
    - injection S as <-. eexists. split; [reflexivity |].
      destruct r; simpl; lia.
    - injection S as <-. eexists. split; [reflexivity | simpl; lia]. }
  destruct G as (p & -> & R). split.
  - rewrite upd_eq. exact R.
  - intros j N. apply upd_neq, N.
Qed.

(** Callers stay callers: no statement leads to or from [Idle]. *)
Lemma thread_step_idle (w : world) (c c' : config) (i j : nat) :
  thread_step w c i = Some c' ->
  (pcs c' j = Idle <-> pcs c j = Idle).
Proof.
  unfold thread_step. intros S.
  assert (G : exists p, pcs c' = upd (pcs c) i p /\ p <> Idle /\ pcs c i <> Idle).
  { destruct (pcs c i) as [| | | | | pkg | | r | | v | e]; try discriminate.
    - injection S as <-. eexists. split; [reflexivity |].
      destruct (loaded _); split; discriminate.
    - destruct (lock c); [discriminate |]. injection S as <-.
      eexists. split; [reflexivity | split; discriminate].
    - injection S as <-. eexists. split; [reflexivity |].
      destruct (loaded _); split; discriminate.
    - destruct (prepare w (proc c)) as [[pkg | e] st1]; injection S as <-;
        eexists; (split; [reflexivity | split; discriminate]).
    - injection S as <-. eexists. split; [reflexivity | split; discriminate].
    - injection S as <-. eexists. split; [reflexivity | split; discriminate].
    - injection S as <-. eexists. split; [reflexivity |].
      destruct r; split; discriminate.
    - injection S as <-. eexists. split; [reflexivity | split; discriminate]. }
  destruct G as (p & -> & Np & Ni).
  destruct (Nat.eq_dec j i) as [-> | N].
  - rewrite upd_eq. tauto.
  - rewrite upd_neq by exact N. tauto.
Qed.

Lemma run_idle (w : world) (sched : list nat) (c : config) (j : nat) :
  pcs (run w c sched) j = Idle <-> pcs c j = Idle.
Proof.
  revert c. induction sched as [| i rest IH]; intros c; [tauto |].
  simpl. destruct (thread_step w c i) as [c' |] eqn:S; [| apply IH].
  rewrite IH. eapply thread_step_idle, S.
Qed.

Lemma work_ext (n : nat) (f g : nat -> pc) :
  (forall j, (j < n)%nat -> g j = f j) -> work n g = work n f.
Proof.
  induction n as [| k IH]; intros H; [reflexivity |].
  simpl. rewrite (H k) by lia. rewrite IH; [reflexivity |].
  intros j Hj. apply H. lia.
Qed.

Lemma work_lt (n i : nat) (f g : nat -> pc) :
  (i < n)%nat ->
  (remaining (g i) < remaining (f i))%nat ->
  (forall j, j <> i -> g j = f j) ->
  (work n g < work n f)%nat.
Proof.
  induction n as [| k IH]; intros Hi R H; [lia |].
  simpl. destruct (Nat.eq_dec i k) as [-> | N].
  - rewrite (work_ext k f g); [lia |]. intros j Hj. apply H. lia.
  - rewrite (H k) by congruence.
    assert (work k g < work k f)%nat by (apply IH; [lia | exact R | exact H]).
    lia.
Qed.

(** Either no thread below [m] can move, or one of them can. *)
Lemma step_or_stuck (w : world) (c : config) (m : nat) :
  (forall j, (j < m)%nat -> thread_step w c j = None)
  \/ (exists j c', (j < m)%nat /\ thread_step w c j = Some c').
Proof.
  induction m as [| k IH].
  - left. intros j Hj. lia.
  - destruct IH as [IH | (j & c' & Hj & S)].
    + destruct (thread_step w c k) as [c' |] eqn:S.
      * right. exists k, c'. split; [lia | exact S].
      * left. intros j Hj. destruct (Nat.eq_dec j k) as [-> | N]; [exact S |].
        apply IH. lia.
    + right. exists j, c'. split; [lia | exact S].
Qed.

(** Whatever is on disk, the callers can be scheduled until none of them
    has anything left to do. *)
Lemma some_schedule_finishes (w : world) (n : nat) :
  exists sched, forall j, thread_step w (run w (init n) sched) j = None.
Proof.
  assert (Q : forall k c,
             (work n (pcs c) <= k)%nat ->
             (forall j, (n <= j)%nat -> pcs c j = Idle) ->
             exists sched, forall j, thread_step w (run w c sched) j = None).
  { induction k as [| k IH]; intros c W Out.
    - exists []. simpl. intros j.
      destruct (thread_step w c j) as [c' |] eqn:S; [| reflexivity].
      exfalso. destruct (thread_step_progress w c c' j S) as [R O].
      destruct (Nat.lt_ge_cases j n) as [Lt | Ge].
      + pose proof (work_lt n j (pcs c) (pcs c') Lt R O). lia.
      + unfold thread_step in S. rewrite (Out j Ge) in S. discriminate.
    - destruct (step_or_stuck w c n) as [St | (j & c' & Lt & S)].
      + exists []. simpl. intros j.
        destruct (Nat.lt_ge_cases j n) as [Lt | Ge]; [apply St, Lt |].
        unfold thread_step. rewrite (Out j Ge). reflexivity.
      + destruct (thread_step_progress w c c' j S) as [R O].
        pose proof (work_lt n j (pcs c) (pcs c') Lt R O) as D.
        destruct (IH c') as (sched & F).
        * lia.
        * intros i Ge. rewrite (thread_step_idle w c c' j i S). apply Out, Ge.
        * exists (j :: sched). simpl. rewrite S. exact F. }
  apply (Q (work n (pcs (init n))) (init n)); [lia |].
  intros j Ge. simpl. apply Nat.ltb_ge in Ge. rewrite Ge. reflexivity.
Qed.

(** What holds after every interleaving when the load succeeds. *)
Lemma interleaving_safety (w : world) (good : pydict)
        (n : nat) (sched : list nat) :
  fst (prepare w initial) = Ok good ->
  (joblib_loads (proc (run w (init n) sched)) <= 1)%nat
  /\ (forall i v,
        pcs (run w (init n) sched) i = Done v ->
        v = PyDict good
        /\ joblib_loads (proc (run w (init n) sched)) = 1%nat
        /\ package (_model_cache (proc (run w (init n) sched))) = PyDict good)
  /\ (forall i e, pcs (run w (init n) sched) i <> Failed e)
  /\ (forall i,
        finished (pcs (run w (init n) sched) i) = false ->
        exists j c', thread_step w (run w (init n) sched) j = Some c')
  /\ ((forall j, thread_step w (run w (init n) sched) j = None) ->
      forall i, (i < n)%nat -> pcs (run w (init n) sched) i = Done (PyDict good)).
Proof.
  intros G.
  pose proof (run_invariant w good sched (init n) G (init_invariant good n)) as I.
  pose proof (fun i => run_idle w sched (init n) i) as Idl.
  set (c := run w (init n) sched) in *.
  assert (Live : forall i, finished (pcs c i) = false ->
                           exists j c', thread_step w c j = Some c').
  { intros i U.
    assert (A : forall j, finished (pcs c j) = false ->
                          pcs c j <> Acquire ->
                          exists c', thread_step w c j = Some c').
    { intros j Fj Nj. unfold thread_step.
      destruct (pcs c j) as [| | | | | pkg | | r | | v | e];
        try discriminate; try congruence; eauto.
      destruct (prepare w (proc c)) as [[pkg | e] st1]; eauto. }
    destruct (lock c) as [k |] eqn:Lk.
    - exists k. apply A.
      + apply (inv_lock _ _ I) in Lk. destruct (pcs c k); simpl in *; congruence.
      + apply (inv_lock _ _ I) in Lk. intros Q. rewrite Q in Lk. discriminate.
    - exists i. unfold thread_step.
      destruct (pcs c i) as [| | | | | pkg | | r | | v | e] eqn:Pi;
        try discriminate; eauto.
      + rewrite Lk. eauto.
      + destruct (prepare w (proc c)) as [[pkg | e] st1]; eauto. }
  split; [| split; [| split; [| split; [exact Live |]]]].
  - destruct (loaded (_model_cache (proc c))) eqn:L.
    + destruct (inv_loaded _ _ I L) as [_ ->]. lia.
    + destruct (inv_unloaded _ _ I L) as [-> | (k & K)]; [lia |].
      pose proof (inv_pc _ _ I k) as Q.
      destruct (pcs c k); simpl in K; try discriminate; simpl in Q.
      * destruct Q as (_ & _ & ->). lia.
      * destruct Q as (_ & _ & ->). lia.
  - intros i v D. pose proof (inv_pc _ _ I i) as Q. rewrite D in Q.
    simpl in Q. destruct Q as [-> L].
    destruct (inv_loaded _ _ I L) as [P Z]. auto.
  - intros i e F. pose proof (inv_pc _ _ I i) as Q. rewrite F in Q. exact Q.
  - intros Q i Hi.
    destruct (finished (pcs c i)) eqn:F.
    + pose proof (inv_pc _ _ I i) as K.
      destruct (pcs c i) as [| | | | | pkg | | r | | v | e] eqn:Pi;
        try discriminate.
      * apply Idl in Pi. simpl in Pi.
        apply Nat.ltb_lt in Hi. rewrite Hi in Pi. discriminate.
      * simpl in K. destruct K as [-> _]. reflexivity.
      * destruct K.
    + destruct (Live i F) as (j & c' & S). rewrite Q in S. discriminate.
Qed.

(** C8, amended: when the load succeeds (the file deserialises, normalises
    and its codec builds), then after any interleaving of any number of
    callers of [get_pipeline] the file has been deserialised at most once,
    exactly once as soon as a caller has returned; every caller that has
    returned holds the one cached package; no caller has failed; while a
    caller is unfinished some thread can take a step; once no thread can,
    every caller has returned; and the callers can always be scheduled to
    that end. *)
Theorem C8_successful_load_happens_once (w : world) (good : pydict)
        (n : nat) (sched : list nat) :
  fst (prepare w initial) = Ok good ->
  (joblib_loads (proc (run w (init n) sched)) <= 1)%nat
  /\ (forall i v,
        pcs (run w (init n) sched) i = Done v ->
        v = PyDict good
        /\ joblib_loads (proc (run w (init n) sched)) = 1%nat
        /\ package (_model_cache (proc (run w (init n) sched))) = PyDict good)
  /\ (forall i e, pcs (run w (init n) sched) i <> Failed e)
  /\ (forall i,
        finished (pcs (run w (init n) sched) i) = false ->
        exists j c', thread_step w (run w (init n) sched) j = Some c')
  /\ ((forall j, thread_step w (run w (init n) sched) j = None) ->
      forall i, (i < n)%nat -> pcs (run w (init n) sched) i = Done (PyDict good))
  /\ (exists sched',
        forall i, (i < n)%nat ->
                  pcs (run w (init n) sched') i = Done (PyDict good)
                  /\ joblib_loads (proc (run w (init n) sched')) = 1%nat).
Proof.
  intros G.
  destruct (interleaving_safety w good n sched G) as (A & B & C & D & F).
  repeat (split; [assumption |]).
  destruct (some_schedule_finishes w n) as (sched' & Q).
  exists sched'. intros i Hi.
  destruct (interleaving_safety w good n sched' G) as (_ & B' & _ & _ & F').
  pose proof (F' Q i Hi) as K. split; [exact K |].
  apply (B' i _ K).
Qed.

End WithExternals.

(** C8, as stated, fails when the load raises: nothing is cached, and two
    callers, one after the other, deserialise the file twice and both raise,
    as two successive calls of [get_pipeline] do. *)
Lemma C8_failed_load_is_repeated :
  joblib_loads (proc (run (E := stub) bad_labels (init 2)
                          [0; 0; 0; 0; 0; 1; 1; 1; 1; 1]%nat)) = 2%nat
  /\ pcs (run (E := stub) bad_labels (init 2) [0; 0; 0; 0; 0; 1; 1; 1; 1; 1]%nat) 0%nat
     = Failed ValueError
  /\ pcs (run (E := stub) bad_labels (init 2) [0; 0; 0; 0; 0; 1; 1; 1; 1; 1]%nat) 1%nat
     = Failed ValueError
  /\ joblib_loads
       (snd (get_pipeline (E := stub) bad_labels
               (snd (get_pipeline (E := stub) bad_labels initial)))) = 2%nat.
Proof. repeat split; reflexivity. Qed.

Lemma C8_successful_load_happens_once_witness :
  fst (prepare (E := stub) two_fields initial)
  = Ok [ (PyStr "pipeline", some_pipeline);
         (PyStr "required_raw_features", names_list ["a"; "b"]);
         (PyStr "label_mapping", PyDict [(PyInt 1, PyStr "DDoS")]);
         (PyStr "model_metadata", PyNone);
         (PyStr "_label_id_to_name", PyDict [(PyInt 1, PyStr "DDoS")]);
         (PyStr "_label_name_to_id", PyDict [(PyStr "DDoS", PyInt 1)]) ]
  /\ (forall i, (i < 3)%nat ->
        exists v,
          pcs (run (E := stub) two_fields (init 3)
                   [0; 1; 2; 0; 1; 0; 0; 2; 0; 0; 0; 1; 0; 1; 1; 2; 1; 2; 2; 2]%nat) i
          = Done v
          /\ v = package (_model_cache
                            (snd (get_pipeline (E := stub) two_fields initial))))
  /\ joblib_loads (proc (run (E := stub) two_fields (init 3)
                             [0; 1; 2; 0; 1; 0; 0; 2; 0; 0; 0; 1; 0; 1; 1; 2; 1; 2; 2; 2]%nat))
     = 1%nat
  /\ lock (run (E := stub) two_fields (init 3)
               [0; 1; 2; 0; 1; 0; 0; 2; 0; 0; 0; 1; 0; 1; 1; 2; 1; 2; 2; 2]%nat)
     = None.
Proof.
  split; [reflexivity |].
  pose proof (C8_successful_load_happens_once (E := stub) two_fields _ 3
                [0; 1; 2; 0; 1; 0; 0; 2; 0; 0; 0; 1; 0; 1; 1; 2; 1; 2; 2; 2]%nat
                eq_refl) as (_ & D & _).
  assert (F : forall i, (i < 3)%nat ->
                exists v,
                  pcs (run (E := stub) two_fields (init 3)
                           [0; 1; 2; 0; 1; 0; 0; 2; 0; 0; 0; 1; 0; 1; 1; 2; 1; 2; 2; 2]%nat) i
                  = Done v).
  { intros [| [| [| i]]] Hi; [eexists; reflexivity .. | lia]. }
  split; [| split; [| reflexivity]].
  - intros i Hi. destruct (F i Hi) as (v & Q). exists v. split; [exact Q |].
    destruct (D i v Q) as (-> & _). reflexivity.
  - destruct (F 0%nat ltac:(lia)) as (v & Q). apply (D 0%nat v Q).
Defined.

End ConcurrentClaims.
